(** * The "add plugin" command of the Vendure CLI

    A shallow embedding of
    [packages/cli/src/commands/add/plugin/create-new-plugin.ts]
    ([createNewPlugin], [generatePlugin], [getPluginDirName]) and the
    properties its specification states about it.

    JavaScript strings are modelled by [string]: a sequence of 8-bit
    characters.  Every plugin name the command accepts is made of the ASCII
    characters [a-z], [0-9] and [-], and the regular expressions of the
    source only ever match ASCII characters, so nothing below depends on
    characters beyond ASCII. *)

From Stdlib Require Import Ascii NArith.
From stdpp Require Import base strings list gmap.

(** ** Characters and the regular expressions of the source *)

Module Char.

Definition code (c : ascii) : N := N_of_ascii c.

Definition between (lo hi c : ascii) : bool :=
  ((code lo <=? code c) && (code c <=? code hi))%N.

(** [[a-z]], [[A-Z]], [[0-9]] *)
Definition is_lower (c : ascii) : bool := between "a"%char "z"%char c.
Definition is_upper (c : ascii) : bool := between "A"%char "Z"%char c.
Definition is_digit (c : ascii) : bool := between "0"%char "9"%char c.

(** [toUpperCase] and [toLowerCase] on one character. *)
Definition toUpperCase (c : ascii) : ascii :=
  if is_lower c then ascii_of_N (code c - 32) else c.
Definition toLowerCase (c : ascii) : ascii :=
  if is_upper c then ascii_of_N (code c + 32) else c.

(** Character comparison under the [i] flag: both sides are canonicalised
    by upper-casing. *)
Definition eqb_i (p c : ascii) : bool :=
  Ascii.eqb (toUpperCase p) (toUpperCase c).

(** [[a-z-0-9]]: the range [a-z], a literal dash, the range [0-9]. *)
Definition is_name_char (c : ascii) : bool :=
  is_lower c || Ascii.eqb c "-"%char || is_digit c.

End Char.

(** [[a-z0-9]], the characters of a word in kebab-case. *)
Definition is_word_char (c : ascii) : bool := Char.is_lower c || Char.is_digit c.

(** Every character of [s] satisfies [p]. *)
Fixpoint all_chars (p : ascii -> bool) (s : string) : bool :=
  match s with
  | EmptyString => true
  | String c s' => p c && all_chars p s'
  end.

(** [/^[a-z][a-z-0-9]+$/.test(input)], the validator of the name prompt. *)
Definition valid_name (input : string) : bool :=
  match input with
  | String c0 (String c1 rest) =>
      Char.is_lower c0 && Char.is_name_char c1 && all_chars Char.is_name_char rest
  | _ => false
  end.

(** The literal [pat], compared case-insensitively, followed by [$]. *)
Fixpoint match_literal_end (pat s : string) : bool :=
  match pat, s with
  | EmptyString, EmptyString => true
  | String p pat', String c s' => Char.eqb_i p c && match_literal_end pat' s'
  | _, _ => false
  end.

(** [/-?plugin$/i] tried at the start of [s]: the optional dash is greedy,
    and the matcher backtracks to the empty alternative when the rest fails
    after the dash. *)
Definition match_plugin_suffix_here (s : string) : bool :=
  match s with
  | String "-"%char s' =>
      match_literal_end "plugin" s' || match_literal_end "plugin" s
  | _ => match_literal_end "plugin" s
  end.

(** [name.replace(/-?plugin$/i, '')]: the regular expression is not global,
    so the leftmost match is replaced; the start positions are tried from
    the left, and a match always runs to the end of the input. *)
Fixpoint nameWithoutPlugin (name : string) : string :=
  if match_plugin_suffix_here name then EmptyString
  else match name with
       | EmptyString => EmptyString
       | String c rest => String c (nameWithoutPlugin rest)
       end.

(** [nameWithoutPlugin + '-plugin'] *)
Definition normalizedName (name : string) : string :=
  nameWithoutPlugin name +:+ "-plugin".

(** ** Strings: the JavaScript operations the command uses *)

Module Str.

Fixpoint map (f : ascii -> ascii) (s : string) : string :=
  match s with
  | EmptyString => EmptyString
  | String c s' => String (f c) (map f s')
  end.

Definition toUpperCase : string -> string := map Char.toUpperCase.
Definition toLowerCase : string -> string := map Char.toLowerCase.

(** [s.split(sep)] for a one-character separator: never an empty list,
    [''.split(sep)] is [['']]. *)
Fixpoint split (sep : ascii) (s : string) : list string :=
  match s with
  | EmptyString => [EmptyString]
  | String c s' =>
      if Ascii.eqb c sep then EmptyString :: split sep s'
      else match split sep s' with
           | w :: ws => String c w :: ws
           | [] => [String c EmptyString]
           end
  end.

(** [parts.join(sep)] *)
Fixpoint join (sep : string) (parts : list string) : string :=
  match parts with
  | [] => EmptyString
  | [w] => w
  | w :: ws => w +:+ sep +:+ join sep ws
  end.

(** [xs.map((x, index) => f(x, index))], counting from [i]. *)
Fixpoint mapi {A B} (f : A -> nat -> B) (i : nat) (xs : list A) : list B :=
  match xs with
  | [] => []
  | x :: xs' => f x i :: mapi f (S i) xs'
  end.

End Str.

(** ** The case converter *)

(** Modelled from the spec: the case converter ([paramCase], [pascalCase]
    and [constantCase], imported from the package [change-case]) is not
    under src/.  The spec (4.1) gives it as pure functions that cut the
    input into words at the transitions from a lowercase letter or a digit
    to an uppercase letter and at non-alphanumeric separators, and project
    the words to kebab-case, PascalCase and CONSTANT_CASE.  The model
    follows the package's [noCase]: two splitting passes insert a boundary
    mark, every run of non-alphanumeric characters becomes one mark, marks
    around the result are trimmed, and the words between marks are
    transformed one by one and joined by the delimiter. *)
Module ChangeCase.

(** The boundary mark, the character of code 0. *)
Definition mark : ascii := zero.

Definition is_alnum (c : ascii) : bool :=
  Char.is_lower c || Char.is_upper c || Char.is_digit c.

(** Boundary between [[a-z0-9]] and a following [[A-Z]]; the scan resumes
    after the two characters matched. *)
Fixpoint split_lower_upper (s : string) : string :=
  match s with
  | EmptyString => EmptyString
  | String a s' =>
      match s' with
      | EmptyString => String a EmptyString
      | String b rest =>
          if (Char.is_lower a || Char.is_digit a) && Char.is_upper b
          then String a (String mark (String b (split_lower_upper rest)))
          else String a (split_lower_upper s')
      end
  end.

(** Boundary inside [[A-Z]][[A-Z]][[a-z]], after the first letter; the
    scan resumes after the three characters matched. *)
Fixpoint split_upper_word (s : string) : string :=
  match s with
  | EmptyString => EmptyString
  | String a s' =>
      match s' with
      | String b (String c rest) =>
          if Char.is_upper a && Char.is_upper b && Char.is_lower c
          then String a (String mark (String b (String c (split_upper_word rest))))
          else String a (split_upper_word s')
      | _ => String a (split_upper_word s')
      end
  end.

(** Every maximal run of characters outside [[A-Z0-9]] (case-insensitive)
    becomes one mark; [in_run] tells that the run has begun. *)
Fixpoint strip_from (in_run : bool) (s : string) : string :=
  match s with
  | EmptyString => EmptyString
  | String c s' =>
      if is_alnum c then String c (strip_from false s')
      else if in_run then strip_from true s'
      else String mark (strip_from true s')
  end.
Definition strip : string -> string := strip_from false.

(** The marks at the start are skipped. *)
Fixpoint trim_start (s : string) : string :=
  match s with
  | String c s' => if Ascii.eqb c mark then trim_start s' else s
  | EmptyString => EmptyString
  end.

(** The marks at the end are dropped. *)
Fixpoint trim_end (s : string) : string :=
  match s with
  | EmptyString => EmptyString
  | String c s' =>
      match trim_end s' with
      | EmptyString => if Ascii.eqb c mark then EmptyString else String c EmptyString
      | t => String c t
      end
  end.

Definition words (input : string) : list string :=
  Str.split mark
    (trim_end (trim_start (strip (split_upper_word (split_lower_upper input))))).

(** Modelled from the spec: the words of the input, each transformed, joined
    by the delimiter. *)
Definition noCase (transform : string -> nat -> string) (delimiter : string)
    (input : string) : string :=
  Str.join delimiter (Str.mapi transform 0 (words input)).

Definition lowerCase (word : string) (_ : nat) : string := Str.toLowerCase word.
Definition upperCase (word : string) (_ : nat) : string := Str.toUpperCase word.

(** First letter upper-cased, the rest lower-cased; a word after the first
    that starts with a digit is prefixed with an underscore. *)
Definition pascalCaseTransform (word : string) (index : nat) : string :=
  match word with
  | EmptyString => EmptyString
  | String first rest =>
      if (0 <? index) && Char.is_digit first
      then String "_"%char (String first (Str.toLowerCase rest))
      else String (Char.toUpperCase first) (Str.toLowerCase rest)
  end.

(** Modelled from the spec: the kebab-case projection. *)
Definition paramCase : string -> string := noCase lowerCase "-".

(** Modelled from the spec: the PascalCase projection. *)
Definition pascalCase : string -> string := noCase pascalCaseTransform EmptyString.

(** Modelled from the spec: the CONSTANT_CASE projection. *)
Definition constantCase : string -> string := noCase upperCase "_".

End ChangeCase.

(** ** Paths *)

(** Modelled from the spec: the path operations ([path.join] and
    [path.sep] of the platform's path module) are not under src/.  The
    spec writes the result of joining as [<a>/<b>]; the model is the POSIX
    one: the separator is a slash, empty arguments are skipped, the others
    are joined by a slash and the result is normalised (empty and [.]
    segments dropped, [..] resolved, a leading and a trailing slash kept). *)
Module Path.

Definition sep : ascii := "/"%char.
Definition sep_string : string := String sep EmptyString.

Definition starts_with_sep (p : string) : bool :=
  match p with
  | String c _ => Ascii.eqb c sep
  | EmptyString => false
  end.

Fixpoint ends_with_sep (p : string) : bool :=
  match p with
  | EmptyString => false
  | String c EmptyString => Ascii.eqb c sep
  | String _ p' => ends_with_sep p'
  end.

(** The segments kept so far are in [kept], the last one first. *)
Fixpoint resolve (allowAboveRoot : bool) (kept : list string)
    (segments : list string) : list string :=
  match segments with
  | [] => kept
  | seg :: rest =>
      if bool_decide (seg = EmptyString) || bool_decide (seg = ".") then
        resolve allowAboveRoot kept rest
      else if bool_decide (seg = "..") then
        match kept with
        | top :: below =>
            if bool_decide (top = "..")
            then resolve allowAboveRoot
                   (if allowAboveRoot then ".." :: kept else kept) rest
            else resolve allowAboveRoot below rest
        | [] =>
            resolve allowAboveRoot (if allowAboveRoot then [".."] else []) rest
        end
      else resolve allowAboveRoot (seg :: kept) rest
  end.

Definition normalize (p : string) : string :=
  match p with
  | EmptyString => "."
  | _ =>
      let isAbsolute := starts_with_sep p in
      let trailingSeparator := ends_with_sep p in
      let body :=
        Str.join sep_string
          (rev (resolve (negb isAbsolute) [] (Str.split sep p))) in
      match body with
      | EmptyString =>
          if isAbsolute then sep_string
          else if trailingSeparator then "./" else "."
      | _ =>
          (if isAbsolute then sep_string else EmptyString)
          +:+ body
          +:+ (if trailingSeparator then sep_string else EmptyString)
      end
  end.

(** Modelled from the spec: [path.join(...args)]. *)
Definition join (args : list string) : string :=
  match filter (fun a => a ≠ EmptyString) args with
  | [] => "."
  | parts => normalize (Str.join sep_string parts)
  end.

End Path.

(** ** Absolute paths

    The paths [process.cwd()] returns: a slash before each of a list of
    segments, or a single slash for the root. *)

Definition no_sep (s : string) : bool :=
  all_chars (fun c => negb (Ascii.eqb c Path.sep)) s.

(** A segment that stands for itself in a path: not empty, neither [.] nor
    [..], and without a separator. *)
Definition plain_segment (seg : string) : Prop :=
  seg <> EmptyString /\ seg <> "." /\ seg <> ".." /\ no_sep seg = true.

Definition absolute (segments : list string) : string :=
  Path.sep_string +:+ Str.join Path.sep_string segments.

(** ** Source files, the disk and the in-memory project *)

(** A source file as the command sees it through the syntax-tree library:
    its class declarations (by name), its variable declarations, its
    imports and, for a file that holds the application's configuration
    declaration, the elements of that declaration's plugins list. *)
Record VariableDeclaration := {
  variableName : string;
  initializer : string
}.

Record ImportDeclaration := {
  moduleSpecifier : string;
  namedImports : list string
}.

Record SourceFile := {
  classes : list string;
  variables : list VariableDeclaration;
  imports : list ImportDeclaration;
  configPlugins : option (list string)
}.

(** What the disk holds at a path.  Paths are looked up as written. *)
Inductive Entry :=
| Directory
| TsFile (content : SourceFile)
| OtherFile.

(** A source file of the in-memory project, at its current path. *)
Record MemFile := {
  filePath : string;
  fileContent : SourceFile
}.

(** What the command writes to the console, and the flush of the project. *)
Inductive Event :=
| Intro (message : string)
| Outro (message : string)
| CancelMessage (message : string)
| TextPrompt (message initialValue : string)
| SelectPrompt (message : string)
| ValidationMessage (message : string)
| SpinnerStart (message : string)
| SpinnerStop (message : string)
| Flush.

(** The state the command runs in: the disk, the in-memory project (files
    are referred to by their index in it) and the console so far. *)
Record World := {
  disk : gmap string Entry;
  project : list MemFile;
  console : list Event
}.

(** How a run stops short of returning: [process.exit(code)], an uncaught
    [Error], or a prompt left waiting because the user gave no more input. *)
Inductive Halt :=
| ProcessExit (code : Z)
| Uncaught (message : string)
| AwaitingInput.

(** Commands: state passing, with the ways to stop. *)
Definition Cmd (A : Type) : Type := World -> (A + Halt) * World.

#[global] Instance Cmd_ret : MRet Cmd := fun A a w => (inl a, w).
#[global] Instance Cmd_bind : MBind Cmd := fun A B f m w =>
  match m w with
  | (inl a, w') => f a w'
  | (inr h, w') => (inr h, w')
  end.

Definition halt {A} (h : Halt) : Cmd A := fun w => (inr h, w).
Definition throw {A} (message : string) : Cmd A := halt (Uncaught message).
Definition process_exit {A} (code : Z) : Cmd A := halt (ProcessExit code).
Definition get : Cmd World := fun w => (inl w, w).

(** The world after [e] is written to the console. *)
Definition log (e : Event) (w : World) : World :=
  {| disk := disk w; project := project w; console := console w ++ [e] |}.

Definition emit (e : Event) : Cmd unit := fun w => (inl tt, log e w).

Definition setProject (p : list MemFile) : Cmd unit := fun w =>
  (inl tt, {| disk := disk w; project := p; console := console w |}).

Definition setDisk (d : gmap string Entry) : Cmd unit := fun w =>
  (inl tt, {| disk := d; project := project w; console := console w |}).

(** The environment of the process: [process.cwd()], [__dirname], and the
    two places the code missing from src/ depends on. *)
Record Env := {
  cwd : string;
  dirname : string;
  (** where [createFile] puts a loaded template in the project *)
  tempPath : string -> string;
  (** where the application's configuration file is *)
  configPath : string
}.

(** [fs.existsSync(p)], [fs.pathExistsSync(p)] *)
Definition existsSync (d : gmap string Entry) (p : string) : bool :=
  bool_decide (is_Some (d !! p)).

(** ** The default plugin directory (lines 146-160) *)

Definition getPluginDirName (env : Env) (d : gmap string Entry) (name : string) : string :=
  let pathParts := Str.split Path.sep (cwd env) in
  let currentlyInPluginsDir := bool_decide (last pathParts = Some "plugins") in
  let currentlyInRootDir := existsSync d (Path.join [cwd env; "package.json"]) in
  let nameWithoutPlugin := nameWithoutPlugin name in
  if currentlyInPluginsDir then
    Path.join [cwd env; ChangeCase.paramCase nameWithoutPlugin]
  else if currentlyInRootDir then
    Path.join [cwd env; "src"; "plugins"; ChangeCase.paramCase nameWithoutPlugin]
  else
    Path.join [cwd env; ChangeCase.paramCase nameWithoutPlugin].

(** ** The in-memory project *)

(** Modelled from the spec: the Source Project Model (the syntax-tree
    library and the helpers [getTsMorphProject], [createFile] and
    [addImportsToFile] of [utilities/ast-utils]) is not under src/.  The
    spec (2, 4.3) gives it as an in-memory representation of source files
    that supports loading a template file into the model, locating a named
    declaration in a file, renaming or mutating it, adding an import,
    moving a file to a new path within the project, and persisting all
    in-memory changes to disk in one flush; nothing but the flush writes
    to disk.  Handles into the project: a file by its index, a declaration
    by the index of its file and its position among the file's
    declarations. *)
Record ClassDeclaration := {
  classFile : nat;
  classIndex : nat
}.

Record VariableHandle := {
  variableFile : nat;
  variableIndex : nat
}.

(** The index of the first element of [xs] that satisfies [p]. *)
Fixpoint find_index {A} (p : A -> bool) (xs : list A) : option nat :=
  match xs with
  | [] => None
  | x :: xs' => if p x then Some 0 else S <$> find_index p xs'
  end.

Definition updateFile (file : nat) (f : SourceFile -> SourceFile) : Cmd unit :=
  w ← get;
  setProject
    (alter (fun m => {| filePath := filePath m; fileContent := f (fileContent m) |})
       file (project w)).

(** Modelled from the spec: a fresh project, with no source file. *)
Definition getTsMorphProject : Cmd unit := setProject [].

(** Modelled from the spec: loading a template file into the model; the
    template is read from disk and added to the project. *)
Definition createFile (env : Env) (templatePath : string) : Cmd nat :=
  w ← get;
  match disk w !! templatePath with
  | Some (TsFile template) =>
      setProject
        (project w ++ [{| filePath := tempPath env templatePath;
                          fileContent := template |}]);;
      mret (length (project w))
  | _ => throw ("ENOENT: no such file or directory, open '" +:+ templatePath +:+ "'")
  end.

(** Modelled from the spec: locating a class declaration by name,
    [file.getClass(name)]. *)
Definition getClass (file : nat) (name : string) : Cmd (option ClassDeclaration) :=
  w ← get;
  mret (m ← project w !! file;
        i ← find_index (fun c => bool_decide (c = name)) (classes (fileContent m));
        Some {| classFile := file; classIndex := i |}).

(** Modelled from the spec: renaming the declaration,
    [classDeclaration.rename(newName)]. *)
Definition renameClass (c : ClassDeclaration) (newName : string) : Cmd unit :=
  updateFile (classFile c) (fun sf =>
    {| classes := <[classIndex c := newName]> (classes sf);
       variables := variables sf;
       imports := imports sf;
       configPlugins := configPlugins sf |}).

(** Modelled from the spec: locating a variable declaration by name,
    [file.getVariableDeclaration(name)]. *)
Definition getVariableDeclaration (file : nat) (name : string)
    : Cmd (option VariableHandle) :=
  w ← get;
  mret (m ← project w !! file;
        i ← find_index (fun v => bool_decide (variableName v = name))
              (variables (fileContent m));
        Some {| variableFile := file; variableIndex := i |}).

Definition updateVariable (v : VariableHandle)
    (f : VariableDeclaration -> VariableDeclaration) : Cmd unit :=
  updateFile (variableFile v) (fun sf =>
    {| classes := classes sf;
       variables := alter f (variableIndex v) (variables sf);
       imports := imports sf;
       configPlugins := configPlugins sf |}).

(** Modelled from the spec: [variableDeclaration.rename(newName)]. *)
Definition renameVariable (v : VariableHandle) (newName : string) : Cmd unit :=
  updateVariable v (fun d =>
    {| variableName := newName; initializer := initializer d |}).

(** Modelled from the spec: [variableDeclaration.set({ initializer })]. *)
Definition setInitializer (v : VariableHandle) (init : string) : Cmd unit :=
  updateVariable v (fun d =>
    {| variableName := variableName d; initializer := init |}).

(** Modelled from the spec: moving a file to a new path within the project,
    [file.move(newPath)]. *)
Definition move (file : nat) (newPath : string) : Cmd unit :=
  w ← get;
  setProject
    (alter (fun m => {| filePath := newPath; fileContent := fileContent m |})
       file (project w)).

(** The disk after every file of the project is written at its path. *)
Definition flush (files : list MemFile) (d : gmap string Entry) : gmap string Entry :=
  foldl (fun acc m => <[filePath m := TsFile (fileContent m)]> acc) d files.

(** Modelled from the spec: persisting all in-memory changes to disk,
    [project.save()]. *)
Definition save : Cmd unit :=
  w ← get;
  setDisk (flush (project w) (disk w));;
  emit Flush.

(** ** Plugin and configuration references *)

(** Modelled from the spec: [VendurePluginRef] and [VendureConfigRef] (of
    [shared/]) are not under src/.  The spec (2, 3, 4.4) gives the Plugin
    Reference as a handle wrapping the plugin's class declaration that
    exposes its name, read from the declaration, and its source file; and
    the Config Reference as a handle wrapping the application's single
    configuration file, located when first needed, with an operation that
    appends an entry to its plugins list; a configuration file of another
    shape is a fatal error.  Adding an import appends one import
    declaration to the file. *)
Record VendurePluginRef := {
  classDeclaration : ClassDeclaration
}.

Record VendureConfigRef := {
  sourceFile : nat
}.

Definition forgottenNode : string :=
  "Attempted to get information from a node that was removed or forgotten.".

(** Modelled from the spec: the name read from the declaration,
    [plugin.name]. *)
Definition pluginRefName (plugin : VendurePluginRef) : Cmd string :=
  w ← get;
  let c := classDeclaration plugin in
  match project w !! classFile c ≫= fun m => classes (fileContent m) !! classIndex c with
  | Some n => mret n
  | None => throw forgottenNode
  end.

(** Modelled from the spec: the file that holds the declaration,
    [plugin.getSourceFile()]. *)
Definition getSourceFile (plugin : VendurePluginRef) : nat :=
  classFile (classDeclaration plugin).

(** The path of a file of the project. *)
Definition getFilePath (file : nat) : Cmd string :=
  w ← get;
  match project w !! file with
  | Some m => mret (filePath m)
  | None => throw forgottenNode
  end.

Definition configNotFound : string :=
  "Could not find the VendureConfig declaration in your project.".

(** Modelled from the spec: the configuration file is located and added to
    the project, [new VendureConfigRef(project)]. *)
Definition newVendureConfigRef (env : Env) : Cmd VendureConfigRef :=
  w ← get;
  match disk w !! configPath env with
  | Some (TsFile sf) =>
      match configPlugins sf with
      | Some _ =>
          setProject
            (project w ++ [{| filePath := configPath env; fileContent := sf |}]);;
          mret {| sourceFile := length (project w) |}
      | None => throw configNotFound
      end
  | _ => throw configNotFound
  end.

(** Modelled from the spec: an entry is appended to the plugins list,
    [vendureConfig.addToPluginsArray(text)]. *)
Definition addToPluginsArray (config : VendureConfigRef) (text : string) : Cmd unit :=
  updateFile (sourceFile config) (fun sf =>
    {| classes := classes sf;
       variables := variables sf;
       imports := imports sf;
       configPlugins := (fun l => l ++ [text]) <$> configPlugins sf |}).

(** Modelled from the spec: one import is added to the file,
    [addImportsToFile(file, { moduleSpecifier, namedImports })]; the module
    is given as a file of the project and recorded by its path. *)
Definition addImportsToFile (file : nat) (moduleFile : nat) (names : list string)
    : Cmd unit :=
  modulePath ← getFilePath moduleFile;
  updateFile file (fun sf =>
    {| classes := classes sf;
       variables := variables sf;
       imports := imports sf ++
                    [{| moduleSpecifier := modulePath; namedImports := names |}];
       configPlugins := configPlugins sf |}).

(** ** Plugin generation (lines 105-144) *)

Record GeneratePluginOptions := {
  name : string;
  customEntityName : string;
  pluginDir : string
}.

Record NewPluginTemplateContext := {
  options : GeneratePluginOptions;
  pluginName : string;
  pluginInitOptionsName : string
}.

Definition templateContextOf (opts : GeneratePluginOptions) : NewPluginTemplateContext :=
  {| options := opts;
     pluginName := ChangeCase.pascalCase (normalizedName (name opts));
     pluginInitOptionsName :=
       ChangeCase.constantCase (normalizedName (name opts)) +:+ "_OPTIONS" |}.

Definition pluginClassNotFound : string :=
  "Could not find the plugin class in the generated file".

Definition generatePlugin (env : Env) (opts : GeneratePluginOptions)
    : Cmd VendurePluginRef :=
  let nameWithoutPlugin := nameWithoutPlugin (name opts) in
  let templateContext := templateContextOf opts in
  emit (SpinnerStart "Generating plugin scaffold...");;
  getTsMorphProject;;
  pluginFile ← createFile env (Path.join [dirname env; "templates/plugin.template.ts"]);
  pluginClass ← getClass pluginFile "TemplatePlugin";
  match pluginClass with
  | None => throw pluginClassNotFound
  | Some pluginClass =>
      renameClass pluginClass (pluginName templateContext);;
      typesFile ← createFile env (Path.join [dirname env; "templates/types.template.ts"]);
      constantsFile ←
        createFile env (Path.join [dirname env; "templates/constants.template.ts"]);
      optionsSymbol ← getVariableDeclaration constantsFile "TEMPLATE_PLUGIN_OPTIONS";
      match optionsSymbol with
      | Some v =>
          renameVariable v (pluginInitOptionsName templateContext);;
          setInitializer v
            ("Symbol('" +:+ pluginInitOptionsName templateContext +:+ "')")
      | None => mret tt
      end;;
      loggerCtx ← getVariableDeclaration constantsFile "loggerCtx";
      match loggerCtx with
      | Some v => setInitializer v ("'" +:+ pluginName templateContext +:+ "'")
      | None => mret tt
      end;;
      move typesFile (Path.join [pluginDir opts; "types.ts"]);;
      move pluginFile
        (Path.join [pluginDir opts;
                    ChangeCase.paramCase nameWithoutPlugin +:+ ".plugin.ts"]);;
      move constantsFile (Path.join [pluginDir opts; "constants.ts"]);;
      emit (SpinnerStop "Generated plugin scaffold");;
      save;;
      mret {| classDeclaration := pluginClass |}
  end.

(** The world [generatePlugin] stops in when the plugin class is not found:
    the plugin template is loaded, nothing else has happened. *)
Definition afterMissingClass (env : Env) (t1 : SourceFile) (w : World) : World :=
  {| disk := disk w;
     project :=
       [{| filePath :=
             tempPath env (Path.join [dirname env; "templates/plugin.template.ts"]);
           fileContent := t1 |}];
     console := console w ++ [SpinnerStart "Generating plugin scaffold..."] |}.

(** ** Prompts *)

(** Modelled from the spec: the prompt library ([text], [select],
    [isCancel], [cancel], [intro], [outro] and [spinner]) is not under
    src/.  The spec (4.2) gives a text prompt as asking until an input that
    passes the validator is supplied or the user cancels, and the menu as a
    single choice among the five value tokens, or a cancellation.  What the
    user does at a prompt is given as the list of their inputs there; a
    prompt whose list runs out is left waiting. *)
Inductive TextInput :=
| Submit (value : string)
| CancelText.

(** What [text] resolves to: the value, or the cancel symbol. *)
Inductive TextResult :=
| Value (value : string)
| CancelSymbol.

(** Modelled from the spec: the prompt asks until an input passes the
    validator or the user cancels; [validate] returns the message to show,
    or nothing for a valid input. *)
Fixpoint awaitText (validate : World -> string -> option string)
    (inputs : list TextInput) : Cmd TextResult :=
  match inputs with
  | [] => halt AwaitingInput
  | CancelText :: _ => mret CancelSymbol
  | Submit value :: rest =>
      w ← get;
      match validate w value with
      | Some message => emit (ValidationMessage message);; awaitText validate rest
      | None => mret (Value value)
      end
  end.

(** Modelled from the spec: [text({ message, initialValue, validate })]. *)
Definition text (message initialValue : string)
    (validate : World -> string -> option string) (inputs : list TextInput)
    : Cmd TextResult :=
  emit (TextPrompt message initialValue);;
  awaitText validate inputs.

(** The value tokens of the feature menu. *)
Inductive FeatureType := no | entity | service | uiExtensions | codegen.

(** An input at the menu: a choice, with what the user then does inside the
    feature generator chosen (of some type [U]), or a cancellation. *)
Inductive MenuInput (U : Type) :=
| Choose (feature : FeatureType) (inside : U)
| CancelMenu.
Arguments Choose {U} feature inside.
Arguments CancelMenu {U}.

(** What the user does during one run of the command. *)
Record Session (U : Type) := {
  atName : list TextInput;
  atDirectory : list TextInput;
  atMenu : list (MenuInput U)
}.
Arguments atName {U} s.
Arguments atDirectory {U} s.
Arguments atMenu {U} s.

(** ** The command (lines 16-103) *)

Definition cancelledMessage : string := "Plugin setup cancelled.".
Definition introMessage : string := "Adding a new Vendure plugin!".
Definition nameQuestion : string := "What is the name of the plugin?".
Definition outroMessage : string := "✅ Plugin setup complete!".

Definition dquote : string := String (ascii_of_N 34) EmptyString.

Definition invalidNameMessage : string :=
  "The plugin name must be lowercase and contain only letters, numbers and dashes".

Definition directoryExistsMessage (input : string) : string :=
  "A directory named " +:+ dquote +:+ input +:+ dquote
  +:+ " already exists. Please specify a different directory.".

(** The validator of the name prompt (lines 25-29). *)
Definition validateName (_ : World) (input : string) : option string :=
  if negb (valid_name input) then Some invalidNameMessage else None.

(** The validator of the directory prompt (lines 44-48). *)
Definition validateDirectory (w : World) (input : string) : option string :=
  if existsSync (disk w) input then Some (directoryExistsMessage input) else None.

Section Command.

(** The feature generators are external to the command: each is given the
    plugin reference and what the user does inside it, and may do anything
    a command can. *)
Context {U : Type}.
Variable addEntity addService addUiExtensions addCodegen :
  VendurePluginRef -> U -> Cmd unit.

Variable env : Env.

(** Lines 19-56: the name and directory prompts. *)
Definition collectOptions (session : Session U) : Cmd GeneratePluginOptions :=
  let opts := {| name := EmptyString; customEntityName := EmptyString;
                 pluginDir := EmptyString |} in
  emit (Intro introMessage);;
  opts ←
    (if bool_decide (name opts = EmptyString) then
       answer ← text nameQuestion EmptyString
                  validateName (atName session);
       match answer with
       | CancelSymbol => emit (CancelMessage cancelledMessage);; process_exit 0
       | Value n =>
           mret {| name := n; customEntityName := customEntityName opts;
                   pluginDir := pluginDir opts |}
       end
     else mret opts);
  w ← get;
  let pluginDir := getPluginDirName env (disk w) (name opts) in
  confirmation ← text "Plugin location" pluginDir
                   validateDirectory (atDirectory session);
  match confirmation with
  | CancelSymbol => emit (CancelMessage cancelledMessage);; process_exit 0
  | Value dir =>
      mret {| name := name opts; customEntityName := customEntityName opts;
              pluginDir := dir |}
  end.

(** Lines 59-69: the new plugin is registered in the configuration. *)
Definition registerInConfig (plugin : VendurePluginRef) : Cmd unit :=
  emit (SpinnerStart "Updating VendureConfig...");;
  vendureConfig ← newVendureConfigRef env;
  pluginName ← pluginRefName plugin;
  addToPluginsArray vendureConfig (pluginName +:+ ".init({})");;
  importedName ← pluginRefName plugin;
  addImportsToFile (sourceFile vendureConfig) (getSourceFile plugin) [importedName];;
  save;;
  emit (SpinnerStop "Updated VendureConfig").

(** Lines 71-100: the feature menu, once per input of the user there. *)
Fixpoint featureMenu (plugin : VendurePluginRef) (pluginName : string)
    (inputs : list (MenuInput U)) : Cmd unit :=
  emit (SelectPrompt ("Add features to " +:+ pluginName +:+ "?"));;
  match inputs with
  | [] => halt AwaitingInput
  | featureType :: rest =>
      let done := false in
      let done := match featureType with CancelMenu => true | _ => done end in
      done ←
        match featureType with
        | Choose no _ => mret true
        | Choose entity inside => addEntity plugin inside;; mret done
        | Choose uiExtensions inside => addUiExtensions plugin inside;; mret done
        | Choose codegen inside => addCodegen plugin inside;; mret done
        | Choose service inside => addService plugin inside;; mret done
        | CancelMenu => mret done
        end;
      if done : bool then mret tt else featureMenu plugin pluginName rest
  end.

Definition createNewPlugin (session : Session U) : Cmd unit :=
  opts ← collectOptions session;
  plugin ← generatePlugin env opts;
  registerInConfig plugin;;
  featureMenu plugin (name opts) (atMenu session);;
  emit (Outro outroMessage).

End Command.

(** ** A sample project

    A shop with a manifest and a configuration file, the three templates
    of the command where it is installed, and feature generators that do
    nothing: the inputs of the examples below. *)

Module Sample.

Definition env : Env :=
  {| cwd := "/home/dev/shop";
     dirname := "/opt/cli/add/plugin";
     tempPath := fun p => "/memory" +:+ p;
     configPath := "/home/dev/shop/src/vendure-config.ts" |}.

Definition pluginTemplate : SourceFile :=
  {| classes := ["TemplatePlugin"]; variables := []; imports := [];
     configPlugins := None |}.

Definition typesTemplate : SourceFile :=
  {| classes := []; variables := []; imports := []; configPlugins := None |}.

Definition constantsTemplate : SourceFile :=
  {| classes := [];
     variables :=
       [{| variableName := "loggerCtx"; initializer := "'TemplatePlugin'" |};
        {| variableName := "TEMPLATE_PLUGIN_OPTIONS";
           initializer := "Symbol('TEMPLATE_PLUGIN_OPTIONS')" |}];
     imports := []; configPlugins := None |}.

(** A constants template that declares neither expected variable. *)
Definition bareConstantsTemplate : SourceFile :=
  {| classes := [];
     variables := [{| variableName := "VERSION"; initializer := "'1.0.0'" |}];
     imports := []; configPlugins := None |}.

Definition config : SourceFile :=
  {| classes := []; variables := []; imports := [];
     configPlugins := Some ["DefaultJobQueuePlugin"] |}.

(** A plugin template whose class has another name. *)
Definition foreignPluginTemplate : SourceFile :=
  {| classes := ["ExamplePlugin"]; variables := []; imports := [];
     configPlugins := None |}.

Definition diskWith (plugin constants : SourceFile) : gmap string Entry :=
  <["/opt/cli/add/plugin/templates/plugin.template.ts" := TsFile plugin]>
  (<["/opt/cli/add/plugin/templates/types.template.ts" := TsFile typesTemplate]>
  (<["/opt/cli/add/plugin/templates/constants.template.ts" := TsFile constants]>
  (<["/home/dev/shop/src/vendure-config.ts" := TsFile config]>
  (<["/home/dev/shop/package.json" := OtherFile]>
  (<["/home/dev/shop/src" := Directory]>
  (<["/home/dev/shop" := Directory]> ∅)))))).

Definition world : World :=
  {| disk := diskWith pluginTemplate constantsTemplate;
     project := []; console := [] |}.

Definition bareWorld : World :=
  {| disk := diskWith pluginTemplate bareConstantsTemplate;
     project := []; console := [] |}.

Definition foreignWorld : World :=
  {| disk := diskWith foreignPluginTemplate constantsTemplate;
     project := []; console := [] |}.

Definition opts : GeneratePluginOptions :=
  {| name := "reviews"; customEntityName := EmptyString;
     pluginDir := "/home/dev/shop/src/plugins/reviews" |}.

Definition noFeature (_ : VendurePluginRef) (_ : unit) : Cmd unit := mret tt.

Definition run (session : Session unit) (w : World) : (unit + Halt) * World :=
  createNewPlugin noFeature noFeature noFeature noFeature env session w.

(** The user names the plugin and accepts the directory offered. *)
Definition prompts (menu : list (MenuInput unit)) : Session unit :=
  {| atName := [Submit "reviews"];
     atDirectory := [Submit "/home/dev/shop/src/plugins/reviews"];
     atMenu := menu |}.

(** The console after the two prompts. *)
Definition promptsConsole : list Event :=
  [Intro introMessage;
   TextPrompt nameQuestion EmptyString;
   TextPrompt "Plugin location" "/home/dev/shop/src/plugins/reviews"].

Definition afterPrompts (w : World) : World :=
  {| disk := disk w; project := project w; console := promptsConsole |}.

End Sample.

(** ** The constants file after instantiation *)

(** What lines 129-135 leave of the variable declarations of the constants
    template: the first declaration named [TEMPLATE_PLUGIN_OPTIONS], when
    there is one, renamed and initialised with the symbol, and the first
    declaration named [loggerCtx], when there is one, initialised with the
    plugin name. *)
Definition instantiatedVariables (ctx : NewPluginTemplateContext)
    (vars : list VariableDeclaration) : list VariableDeclaration :=
  let renamed :=
    match find_index
            (fun v => bool_decide (variableName v = "TEMPLATE_PLUGIN_OPTIONS")) vars with
    | Some i =>
        <[i := {| variableName := pluginInitOptionsName ctx;
                  initializer := "Symbol('" +:+ pluginInitOptionsName ctx +:+ "')" |}]>
          vars
    | None => vars
    end in
  match find_index (fun v => bool_decide (variableName v = "loggerCtx")) vars with
  | Some j =>
      <[j := {| variableName := "loggerCtx";
                initializer := "'" +:+ pluginName ctx +:+ "'" |}]> renamed
  | None => renamed
  end.

(** The three files of a generated plugin, as generation leaves them in the
    project: the plugin template with its class at [i] renamed, the types
    template, and the constants template with its variables instantiated. *)
Definition generatedProject (opts : GeneratePluginOptions) (i : nat)
    (t1 t2 t3 : SourceFile) : list MemFile :=
  let ctx := templateContextOf opts in
  [ {| filePath :=
         Path.join [pluginDir opts;
                    ChangeCase.paramCase (nameWithoutPlugin (name opts))
                    +:+ ".plugin.ts"];
       fileContent :=
         {| classes := <[i := pluginName ctx]> (classes t1);
            variables := variables t1;
            imports := imports t1;
            configPlugins := configPlugins t1 |} |};
    {| filePath := Path.join [pluginDir opts; "types.ts"]; fileContent := t2 |};
    {| filePath := Path.join [pluginDir opts; "constants.ts"];
       fileContent :=
         {| classes := classes t3;
            variables := instantiatedVariables ctx (variables t3);
            imports := imports t3;
            configPlugins := configPlugins t3 |} |} ].

(** ** The feature generators by value token *)

Section Dispatch.

Context {U : Type}.
Variable addEntity addService addUiExtensions addCodegen :
  VendurePluginRef -> U -> Cmd unit.

(** The generator that lines 89-99 call for a value token of the menu; none
    for [no]. *)
Definition generatorOf (feature : FeatureType)
    : option (VendurePluginRef -> U -> Cmd unit) :=
  match feature with
  | no => None
  | entity => Some addEntity
  | uiExtensions => Some addUiExtensions
  | codegen => Some addCodegen
  | service => Some addService
  end.

(** One display of the menu followed by the generator chosen, for each of a
    list of choices in turn. *)
Fixpoint runChoices (plugin : VendurePluginRef) (pluginName : string)
    (choices : list (FeatureType * U)) : Cmd unit :=
  match choices with
  | [] => mret tt
  | (feature, inside) :: rest =>
      emit (SelectPrompt ("Add features to " +:+ pluginName +:+ "?"));;
      match generatorOf feature with
      | Some generator => generator plugin inside
      | None => mret tt
      end;;
      runChoices plugin pluginName rest
  end.

End Dispatch.

(** ** A sample project that fails

    The sample shop without its configuration file, and a feature generator
    that throws. *)

Module SampleFailure.

Definition unconfiguredWorld : World :=
  {| disk := delete "/home/dev/shop/src/vendure-config.ts" (disk Sample.world);
     project := []; console := [] |}.

Definition failingFeature (_ : VendurePluginRef) (_ : unit) : Cmd unit :=
  throw "The entity could not be added".

Definition run (session : Session unit) (w : World) : (unit + Halt) * World :=
  createNewPlugin failingFeature Sample.noFeature Sample.noFeature Sample.noFeature
    Sample.env session w.

End SampleFailure.

(** * Properties *)

(** ** Name normalisation *)

Lemma match_literal_end_length (pat s : string) :
  match_literal_end pat s = true -> String.length s = String.length pat.
Proof.
  revert s; induction pat as [|p pat IH]; intros [|c s]; simpl; try discriminate.
  - reflexivity.
  - intros [_ H]%andb_true_iff. f_equal. by apply IH.
Qed.

Lemma match_plugin_suffix_here_length (s : string) :
  match_plugin_suffix_here s = true -> String.length s <= 7.
Proof.
  unfold match_plugin_suffix_here. intros H.
  assert (match_literal_end "plugin" s = true -> String.length s <= 7) as Hs.
  { intros E%match_literal_end_length. rewrite E. simpl. lia. }
  destruct s as [|c s']; [simpl; lia|].
  destruct (decide (c = "-"%char)) as [->|Hc].
  - apply orb_true_iff in H as [E%match_literal_end_length|E]; [|by apply Hs].
    simpl in *. lia.
  - apply Hs. revert H.
    destruct c as [[] [] [] [] [] [] [] []]; try done.
Qed.

Lemma length_append (s t : string) :
  String.length (s +:+ t) = String.length s + String.length t.
Proof. induction s as [|c s IH]; simpl; [done|by rewrite IH]. Qed.

(** Stripping undoes the appending of ['-plugin'], whatever the string. *)
Lemma nameWithoutPlugin_normalized (s : string) :
  nameWithoutPlugin (s +:+ "-plugin") = s.
Proof.
  induction s as [|c s IH]; [reflexivity|].
  change (String c s +:+ "-plugin") with (String c (s +:+ "-plugin")).
  cbn [nameWithoutPlugin].
  destruct (match_plugin_suffix_here (String c (s +:+ "-plugin"))) eqn:E.
  - apply match_plugin_suffix_here_length in E.
    simpl in E. rewrite length_append in E. simpl in E. lia.
  - by rewrite IH.
Qed.

Lemma normalizedName_fixed (s : string) :
  normalizedName (s +:+ "-plugin") = s +:+ "-plugin".
Proof. unfold normalizedName. by rewrite nameWithoutPlugin_normalized. Qed.

(** C1: name normalisation (strip an optional trailing [-plugin] or [plugin],
    case-insensitively, then append [-plugin]) is idempotent on every name
    the name prompt accepts: normalising a normalised name changes nothing. *)
Theorem normalizedName_idempotent (x : string) :
  valid_name x = true ->
  normalizedName (normalizedName x) = normalizedName x.
Proof. intros _. unfold normalizedName at 2 3. apply normalizedName_fixed. Qed.

Lemma normalizedName_idempotent_witness :
  valid_name "reviews-plugin" = true /\
  normalizedName (normalizedName "reviews-plugin") = normalizedName "reviews-plugin".
Proof.
  split; [reflexivity|].
  apply (normalizedName_idempotent "reviews-plugin"). reflexivity.
Defined.

(** ** The derived names *)

(** C2: for the name [reviews] the template context has the plugin name
    [ReviewsPlugin] and the options name [REVIEWS_PLUGIN_OPTIONS], and the
    name [reviews-plugin] derives the same two (the suffix collapses). *)
Theorem templateContext_reviews (entityName dir : string) :
  let ctx := templateContextOf
    {| name := "reviews"; customEntityName := entityName; pluginDir := dir |} in
  let ctx' := templateContextOf
    {| name := "reviews-plugin"; customEntityName := entityName; pluginDir := dir |} in
  pluginName ctx = "ReviewsPlugin" /\
  pluginInitOptionsName ctx = "REVIEWS_PLUGIN_OPTIONS" /\
  pluginName ctx' = pluginName ctx /\
  pluginInitOptionsName ctx' = pluginInitOptionsName ctx.
Proof. repeat split; reflexivity. Qed.

(** ** Paths *)

Lemma append_cons (c : ascii) (s t : string) :
  String c s +:+ t = String c (s +:+ t).
Proof. reflexivity. Qed.

Lemma append_empty_r (s : string) : s +:+ EmptyString = s.
Proof. induction s as [|c s IH]; [done|]. by rewrite append_cons, IH. Qed.

Lemma append_assoc (s t u : string) : (s +:+ t) +:+ u = s +:+ t +:+ u.
Proof. induction s as [|c s IH]; [done|]. by rewrite !append_cons, IH. Qed.

Lemma split_app_sep (w s : string) :
  no_sep w = true ->
  Str.split Path.sep (w +:+ String Path.sep s) = w :: Str.split Path.sep s.
Proof.
  induction w as [|c w IH]; [reflexivity|].
  unfold no_sep. rewrite append_cons. simpl. intros [Hc Hw]%andb_true_iff.
  apply negb_true_iff in Hc. rewrite Hc. by rewrite IH.
Qed.

Lemma split_no_sep (w : string) :
  no_sep w = true -> Str.split Path.sep w = [w].
Proof.
  induction w as [|c w IH]; [reflexivity|].
  unfold no_sep. simpl. intros [Hc Hw]%andb_true_iff.
  apply negb_true_iff in Hc. rewrite Hc. by rewrite IH.
Qed.

Lemma split_join (parts : list string) :
  parts <> [] ->
  Forall (fun w => no_sep w = true) parts ->
  Str.split Path.sep (Str.join Path.sep_string parts) = parts.
Proof.
  induction parts as [|w [|w2 rest] IH]; [done| |]; intros _ Hall.
  - apply Forall_cons in Hall as [Hw _]. by apply split_no_sep.
  - apply Forall_cons in Hall as [Hw Hrest].
    change (Str.join Path.sep_string (w :: w2 :: rest))
      with (w +:+ String Path.sep (Str.join Path.sep_string (w2 :: rest))).
    rewrite split_app_sep by done. f_equal. by apply IH.
Qed.

Lemma ends_with_sep_no_sep (w : string) :
  no_sep w = true -> Path.ends_with_sep w = false.
Proof.
  induction w as [|c w IH]; [done|].
  unfold no_sep. simpl. intros [Hc Hw]%andb_true_iff.
  apply negb_true_iff in Hc. destruct w; [done|by apply IH].
Qed.

Lemma ends_with_sep_app (s t : string) :
  t <> EmptyString -> Path.ends_with_sep (s +:+ t) = Path.ends_with_sep t.
Proof.
  intros Ht. induction s as [|c s IH]; [done|].
  rewrite append_cons. simpl. destruct (s +:+ t) eqn:E; [|done].
  destruct s; [done|discriminate].
Qed.

Lemma ends_with_sep_cons (c : ascii) (s : string) :
  s <> EmptyString -> Path.ends_with_sep (String c s) = Path.ends_with_sep s.
Proof. by destruct s. Qed.

Lemma join_ne_empty (w : string) (rest : list string) :
  w <> EmptyString -> Str.join Path.sep_string (w :: rest) <> EmptyString.
Proof. destruct w; [done|]. by destruct rest. Qed.

(** A path built from segments, the last of which is not empty, does not
    end with a separator. *)
Lemma ends_with_sep_join (parts : list string) (final : string) :
  Forall (fun w => no_sep w = true) parts ->
  no_sep final = true -> final <> EmptyString ->
  Path.ends_with_sep (Str.join Path.sep_string (parts ++ [final])) = false.
Proof.
  intros Hparts Hfinal Hne.
  induction parts as [|w rest IH]; [by apply ends_with_sep_no_sep|].
  apply Forall_cons in Hparts as [Hw Hrest].
  assert (Str.join Path.sep_string (rest ++ [final]) <> EmptyString) as Hjoin.
  { destruct rest as [|w2 rest]; [done|]. simpl.
    destruct (rest ++ [final]) eqn:E; [by destruct rest|].
    destruct w2; done. }
  change ((w :: rest) ++ [final]) with (w :: (rest ++ [final])).
  destruct (rest ++ [final]) as [|x xs] eqn:E; [by destruct rest|].
  change (Str.join Path.sep_string (w :: x :: xs))
    with (w +:+ String Path.sep (Str.join Path.sep_string (x :: xs))).
  rewrite ends_with_sep_app, ends_with_sep_cons by done.
  by apply IH.
Qed.

Lemma resolve_plain (allowAboveRoot : bool) (kept segments : list string) :
  Forall (fun s => s = EmptyString \/ plain_segment s) segments ->
  Path.resolve allowAboveRoot kept segments =
  rev (filter (fun s => s <> EmptyString) segments) ++ kept.
Proof.
  revert kept. induction segments as [|seg rest IH]; intros kept Hall; [done|].
  apply Forall_cons in Hall as [Hseg Hrest]. simpl.
  rewrite filter_cons.
  destruct Hseg as [->|(Hne & Hdot & Hdots & _)].
  - simpl. by apply IH.
  - rewrite (bool_decide_eq_false_2 _ Hne), (bool_decide_eq_false_2 _ Hdot),
      (bool_decide_eq_false_2 _ Hdots). simpl.
    rewrite decide_True by done. rewrite IH by done.
    simpl. by rewrite <- app_assoc.
Qed.

Lemma filter_plain (segments : list string) :
  Forall plain_segment segments ->
  filter (fun s => s <> EmptyString) segments = segments.
Proof.
  induction 1 as [|seg rest [Hne _] _ IH]; [done|].
  rewrite filter_cons, decide_True by done. by rewrite IH.
Qed.

Lemma join_app (xs ys : list string) :
  xs <> [] -> ys <> [] ->
  Str.join Path.sep_string (xs ++ ys) =
  Str.join Path.sep_string xs +:+ Path.sep_string +:+ Str.join Path.sep_string ys.
Proof.
  intros Hxs Hys. induction xs as [|x [|x2 xs] IH]; [done| |].
  - destruct ys; done.
  - change (Str.join Path.sep_string ((x :: x2 :: xs) ++ ys))
      with (x +:+ Path.sep_string +:+ Str.join Path.sep_string ((x2 :: xs) ++ ys)).
    rewrite IH by done.
    change (Str.join Path.sep_string (x :: x2 :: xs))
      with (x +:+ Path.sep_string +:+ Str.join Path.sep_string (x2 :: xs)).
    by rewrite !append_assoc.
Qed.

(** Normalising a slash followed by segments, empty or plain, the last one
    plain: the plain segments remain, each after a slash. *)
Lemma normalize_segments (parts : list string) (final : string) :
  Forall (fun s => s = EmptyString \/ plain_segment s) parts ->
  plain_segment final ->
  Path.normalize (Path.sep_string +:+ Str.join Path.sep_string (parts ++ [final])) =
  absolute (filter (fun s => s <> EmptyString) parts ++ [final]).
Proof.
  intros Hparts Hfinal.
  assert (Forall (fun w => no_sep w = true) parts) as Hsep.
  { eapply Forall_impl; [exact Hparts|]. by intros s [->|(_ & _ & _ & ?)]. }
  destruct Hfinal as (Hne & Hdot & Hdots & Hfsep).
  assert (String Path.sep (Str.join Path.sep_string (parts ++ [final])) =
          Str.join Path.sep_string ((EmptyString :: parts) ++ [final])) as Hjoin.
  { simpl. destruct (parts ++ [final]) eqn:E; [by destruct parts|reflexivity]. }
  unfold Path.normalize.
  change (Path.sep_string +:+ ?x) with (String Path.sep x). cbv iota.
  change (Path.starts_with_sep (String Path.sep ?x)) with true. cbv iota.
  rewrite Hjoin.
  rewrite (ends_with_sep_join (EmptyString :: parts) final);
    [|by apply Forall_cons|done..].
  rewrite split_join.
  - rewrite resolve_plain.
    + rewrite app_nil_r, rev_involutive.
      assert (filter (fun s => s <> EmptyString) ((EmptyString :: parts) ++ [final])
              = filter (fun s => s <> EmptyString) parts ++ [final]) as ->.
      { rewrite filter_app, (filter_cons _ EmptyString), decide_False by (intros Hcontra; by apply Hcontra).
        by rewrite (filter_cons _ final), decide_True, filter_nil by done. }
      set (kept := filter _ parts ++ [final]).
      assert (Str.join Path.sep_string kept <> EmptyString) as Hbody.
      { subst kept. destruct (filter _ parts) as [|k ks] eqn:E; [done|].
        apply join_ne_empty.
        assert (k ∈ filter (fun s => s <> EmptyString) parts) as Hk
          by (rewrite E; apply list_elem_of_here).
        by apply list_elem_of_filter in Hk as [? _]. }
      destruct (Str.join Path.sep_string kept) eqn:Ej; [done|].
      unfold absolute. rewrite Ej. by rewrite append_empty_r.
    + apply Forall_cons. split; [by left|].
      apply Forall_app. split; [done|].
      apply Forall_cons. split; [|done]. by right.
  - done.
  - apply Forall_cons. split; [done|].
    apply Forall_app. split; [done|]. by apply Forall_cons.
Qed.

Lemma absolute_ne_empty (segments : list string) : absolute segments <> EmptyString.
Proof. done. Qed.

Lemma or_plain (segments : list string) :
  Forall plain_segment segments ->
  Forall (fun s => s = EmptyString \/ plain_segment s) segments.
Proof. intros H. eapply Forall_impl; [exact H|]. by right. Qed.

Lemma filter_or_plain (segments : list string) :
  Forall (fun s => s = EmptyString \/ plain_segment s) segments ->
  Forall plain_segment (filter (fun s => s <> EmptyString) segments).
Proof.
  induction 1 as [|seg rest Hseg _ IH]; [constructor|].
  rewrite filter_cons. destruct Hseg as [->|Hseg].
  - by rewrite decide_False by (intros Hcontra; by apply Hcontra).
  - rewrite decide_True by apply Hseg. by constructor.
Qed.

(** Joining plain segments under an absolute path appends them to it. *)
Lemma join_absolute_plain (segments more : list string) :
  Forall plain_segment segments ->
  Forall plain_segment more ->
  Path.normalize (Str.join Path.sep_string (absolute segments :: more)) =
  absolute (segments ++ more).
Proof.
  intros Hsegs Hmore.
  induction more as [|final front _] using rev_ind.
  - rewrite app_nil_r.
    change (Str.join Path.sep_string [absolute segments]) with (absolute segments).
    induction segments as [|final front _] using rev_ind; [reflexivity|].
    apply Forall_app in Hsegs as [Hfront [Hfinal _]%Forall_cons].
    unfold absolute at 1. rewrite normalize_segments by (done || by apply or_plain).
    by rewrite filter_plain.
  - apply Forall_app in Hmore as [Hfront [Hfinal _]%Forall_cons].
    assert (Str.join Path.sep_string (absolute segments :: front ++ [final]) =
            Path.sep_string +:+
            Str.join Path.sep_string
              ((match segments with [] => [EmptyString] | _ => segments end ++ front)
               ++ [final])) as ->.
    { change (absolute segments :: front ++ [final])
        with ([absolute segments] ++ (front ++ [final])).
      rewrite join_app by (done || by destruct front).
      change (Str.join Path.sep_string [absolute segments]) with (absolute segments).
      unfold absolute. rewrite <- app_assoc.
      destruct segments as [|seg segs].
      - change (Str.join Path.sep_string []) with EmptyString.
        rewrite (join_app [EmptyString]) by (done || by destruct front).
        reflexivity.
      - rewrite (join_app (seg :: segs)) by (done || by destruct front).
        by rewrite !append_assoc. }
    rewrite normalize_segments; [|
      apply Forall_app; split; [destruct segments; [by repeat constructor|]|];
      by apply or_plain | done].
    f_equal. rewrite filter_app, (filter_plain front), <- app_assoc by done.
    f_equal. destruct segments; [|by apply filter_plain].
    by rewrite filter_cons, decide_False by (intros Hcontra; by apply Hcontra).
Qed.

(** [path.join] of an absolute path and of arguments that are empty or
    plain segments: the plain ones are appended. *)
Lemma join_absolute (segments more : list string) :
  Forall plain_segment segments ->
  Forall (fun s => s = EmptyString \/ plain_segment s) more ->
  Path.join (absolute segments :: more) =
  absolute (segments ++ filter (fun s => s <> EmptyString) more).
Proof.
  intros Hsegs Hmore. unfold Path.join.
  rewrite filter_cons, decide_True by apply absolute_ne_empty.
  by apply join_absolute_plain, filter_or_plain.
Qed.


Lemma split_absolute (segments : list string) :
  Forall plain_segment segments ->
  Str.split Path.sep (absolute segments) =
  EmptyString :: match segments with [] => [EmptyString] | _ => segments end.
Proof.
  intros Hsegs. destruct segments as [|seg segs]; [reflexivity|].
  unfold absolute. change (Path.sep_string +:+ ?x) with (EmptyString +:+ String Path.sep x).
  rewrite split_app_sep by done. f_equal.
  apply split_join; [done|].
  eapply Forall_impl; [exact Hsegs|]. by intros s (_ & _ & _ & ?).
Qed.

(** The code's test for the plugins directory, on an absolute path. *)
Lemma last_split_absolute (segments : list string) :
  Forall plain_segment segments ->
  last (Str.split Path.sep (absolute segments)) = Some "plugins" <->
  last segments = Some "plugins".
Proof.
  intros Hsegs. rewrite split_absolute by done.
  destruct segments as [|seg segs]; [done|].
  by rewrite last_cons_cons.
Qed.

(** ** The kebab-case name *)

Lemma all_chars_impl (p q : ascii -> bool) (s : string) :
  (forall c, p c = true -> q c = true) ->
  all_chars p s = true -> all_chars q s = true.
Proof.
  intros Hpq. induction s as [|c s IH]; [done|]. simpl.
  intros [Hc Hs]%andb_true_iff. by rewrite (Hpq c Hc), IH.
Qed.

Lemma all_chars_app (p : ascii -> bool) (s t : string) :
  all_chars p (s +:+ t) = all_chars p s && all_chars p t.
Proof.
  induction s as [|c s IH]; [done|].
  rewrite append_cons. simpl. by rewrite IH, andb_assoc.
Qed.

Lemma alnum_lower_is_word_char (c : ascii) :
  ChangeCase.is_alnum c = true -> is_word_char (Char.toLowerCase c) = true.
Proof. by destruct c as [[] [] [] [] [] [] [] []]. Qed.

Lemma word_char_is_name_char (c : ascii) :
  is_word_char c = true -> Char.is_name_char c = true.
Proof. by destruct c as [[] [] [] [] [] [] [] []]. Qed.

Lemma name_char_no_sep (c : ascii) :
  Char.is_name_char c = true -> negb (Ascii.eqb c Path.sep) = true.
Proof. by destruct c as [[] [] [] [] [] [] [] []]. Qed.

Lemma lower_is_alnum (c : ascii) :
  Char.is_lower c = true ->
  ChangeCase.is_alnum c = true /\ Ascii.eqb c ChangeCase.mark = false.
Proof. by destruct c as [[] [] [] [] [] [] [] []]. Qed.

Lemma strip_from_chars (in_run : bool) (s : string) :
  all_chars (fun c => ChangeCase.is_alnum c || Ascii.eqb c ChangeCase.mark)
    (ChangeCase.strip_from in_run s) = true.
Proof.
  revert in_run. induction s as [|c s IH]; intros in_run; [done|]. simpl.
  destruct (ChangeCase.is_alnum c) eqn:Hc; simpl; [by rewrite Hc, IH|].
  destruct in_run; simpl; by rewrite IH.
Qed.

Lemma trim_start_chars (p : ascii -> bool) (s : string) :
  all_chars p s = true -> all_chars p (ChangeCase.trim_start s) = true.
Proof.
  induction s as [|c s IH]; [done|]. simpl.
  intros [Hc Hs]%andb_true_iff.
  destruct (Ascii.eqb c ChangeCase.mark); [by apply IH|]. simpl. by rewrite Hc, Hs.
Qed.

Lemma trim_end_chars (p : ascii -> bool) (s : string) :
  all_chars p s = true -> all_chars p (ChangeCase.trim_end s) = true.
Proof.
  induction s as [|c s IH]; [done|]. simpl.
  intros [Hc Hs]%andb_true_iff. specialize (IH Hs).
  destruct (ChangeCase.trim_end s) as [|c' t].
  - destruct (Ascii.eqb c ChangeCase.mark); [done|]. simpl. by rewrite Hc.
  - simpl in *. by rewrite Hc, IH.
Qed.

(** The words between two marks have no mark in them. *)
Lemma split_mark_chars (s : string) :
  all_chars (fun c => ChangeCase.is_alnum c || Ascii.eqb c ChangeCase.mark) s = true ->
  Forall (fun w => all_chars ChangeCase.is_alnum w = true)
    (Str.split ChangeCase.mark s).
Proof.
  induction s as [|c s IH]; [by repeat constructor|]. simpl.
  intros [Hc Hs]%andb_true_iff. specialize (IH Hs).
  destruct (Ascii.eqb c ChangeCase.mark) eqn:Hm; [by constructor|].
  rewrite orb_false_r in Hc.
  destruct (Str.split ChangeCase.mark s) as [|w ws].
  - repeat constructor. simpl. by rewrite Hc.
  - apply Forall_cons in IH as [Hw Hws]. constructor; [|done].
    simpl. by rewrite Hc, Hw.
Qed.

Lemma lowerCase_chars (w : string) :
  all_chars ChangeCase.is_alnum w = true ->
  all_chars is_word_char (Str.toLowerCase w) = true.
Proof.
  unfold Str.toLowerCase. induction w as [|c w IH]; [done|]. simpl.
  intros [Hc Hw]%andb_true_iff. by rewrite alnum_lower_is_word_char, IH.
Qed.

Lemma mapi_lowerCase_chars (i : nat) (ws : list string) :
  Forall (fun w => all_chars ChangeCase.is_alnum w = true) ws ->
  Forall (fun w => all_chars is_word_char w = true)
    (Str.mapi ChangeCase.lowerCase i ws).
Proof.
  intros H. revert i. induction H as [|w ws Hw _ IH]; intros i; [constructor|].
  simpl. constructor; [by apply lowerCase_chars|apply IH].
Qed.

Lemma join_dash_chars (ws : list string) :
  Forall (fun w => all_chars is_word_char w = true) ws ->
  all_chars Char.is_name_char (Str.join "-" ws) = true.
Proof.
  induction 1 as [|w ws Hw _ IH]; [done|].
  apply (all_chars_impl _ _ _ word_char_is_name_char) in Hw.
  destruct ws as [|w2 ws]; [done|].
  change (Str.join "-" (w :: w2 :: ws)) with (w +:+ "-" +:+ Str.join "-" (w2 :: ws)).
  by rewrite !all_chars_app, Hw, IH.
Qed.

(** Whatever the input, its kebab-case form is made of [a-z], [0-9] and
    dashes. *)
Lemma paramCase_chars (input : string) :
  all_chars Char.is_name_char (ChangeCase.paramCase input) = true.
Proof.
  unfold ChangeCase.paramCase, ChangeCase.noCase, ChangeCase.words.
  apply join_dash_chars, mapi_lowerCase_chars, split_mark_chars.
  apply trim_end_chars, trim_start_chars, strip_from_chars.
Qed.

Lemma split_lower_upper_head (a : ascii) (s : string) :
  exists r, ChangeCase.split_lower_upper (String a s) = String a r.
Proof. simpl. destruct s as [|b rest]; [by eexists|]. destruct (_ && _); by eexists. Qed.

Lemma split_upper_word_head (a : ascii) (s : string) :
  exists r, ChangeCase.split_upper_word (String a s) = String a r.
Proof.
  simpl. destruct s as [|b [|c rest]]; try by eexists.
  destruct (_ && _); by eexists.
Qed.

Lemma trim_end_head (c : ascii) (s : string) :
  Ascii.eqb c ChangeCase.mark = false ->
  exists r, ChangeCase.trim_end (String c s) = String c r.
Proof.
  intros Hc. simpl. destruct (ChangeCase.trim_end s); [|by eexists].
  rewrite Hc. by eexists.
Qed.

Lemma split_mark_head (c : ascii) (s : string) :
  Ascii.eqb c ChangeCase.mark = false ->
  exists w ws, Str.split ChangeCase.mark (String c s) = String c w :: ws.
Proof.
  intros Hc. simpl. rewrite Hc.
  destruct (Str.split ChangeCase.mark s); by eexists _, _.
Qed.

(** The kebab-case form of a string that starts with a lowercase letter is
    not empty. *)
Lemma paramCase_ne_empty (c : ascii) (s : string) :
  Char.is_lower c = true -> ChangeCase.paramCase (String c s) <> EmptyString.
Proof.
  intros [Halnum Hmark]%lower_is_alnum.
  unfold ChangeCase.paramCase, ChangeCase.noCase, ChangeCase.words.
  destruct (split_lower_upper_head c s) as [r1 ->].
  destruct (split_upper_word_head c r1) as [r2 ->].
  unfold ChangeCase.strip. simpl ChangeCase.strip_from. rewrite Halnum.
  simpl ChangeCase.trim_start. rewrite Hmark.
  destruct (trim_end_head c (ChangeCase.strip_from false r2) Hmark) as [r3 ->].
  destruct (split_mark_head c r3 Hmark) as (w & ws & ->).
  simpl. by destruct ws.
Qed.

Lemma nameWithoutPlugin_chars (p : ascii -> bool) (name : string) :
  all_chars p name = true -> all_chars p (nameWithoutPlugin name) = true.
Proof.
  induction name as [|c name IH]; [done|].
  cbn [nameWithoutPlugin all_chars]. intros [Hc Hs]%andb_true_iff.
  destruct (match_plugin_suffix_here _); [done|].
  cbn [all_chars]. by rewrite Hc, IH.
Qed.

Lemma eqb_i_plugin_letter (p c : ascii) :
  p ∈ ["p"; "l"; "u"; "g"; "i"; "n"]%char ->
  Char.is_name_char c = true -> Char.eqb_i p c = true -> c = p.
Proof.
  intros Hp. repeat (apply elem_of_cons in Hp as [->|Hp]);
    [..|by apply elem_of_nil in Hp];
    by destruct c as [[] [] [] [] [] [] [] []].
Qed.

(** Among the names the prompt accepts, only [plugin] is all suffix. *)
Lemma nameWithoutPlugin_empty (name : string) :
  valid_name name = true -> nameWithoutPlugin name = EmptyString -> name = "plugin".
Proof.
  destruct name as [|c0 [|c1 rest]]; try done. unfold valid_name.
  intros [[H0 H1]%andb_true_iff Hrest]%andb_true_iff.
  cbn [nameWithoutPlugin].
  destruct (match_plugin_suffix_here _) eqn:Hm; [intros _|done].
  assert (match_literal_end "plugin" (String c0 (String c1 rest)) = true) as Hlit.
  { revert Hm H0. unfold match_plugin_suffix_here.
    by destruct c0 as [[] [] [] [] [] [] [] []]. }
  assert (Char.is_name_char c0 = true) as H0' by (unfold Char.is_name_char; by rewrite H0).
  destruct rest as [|c2 [|c3 [|c4 [|c5 [|c6 rest]]]]]; simpl in Hlit, Hrest;
    rewrite ?andb_false_r in Hlit; try done.
  repeat match goal with
         | H : _ && _ = true |- _ => apply andb_true_iff in H as [? ?]
         end.
  repeat match goal with
         | H : Char.eqb_i ?p ?c = true |- _ =>
             apply eqb_i_plugin_letter in H as ->;
             [|repeat first [apply list_elem_of_here|apply list_elem_of_further]|done]
         end.
  reflexivity.
Qed.

(** The kebab-case form of an accepted name without its suffix is one plain
    path segment, except for the name [plugin]. *)
Lemma kebab_plain_segment (name : string) :
  valid_name name = true -> name <> "plugin" ->
  plain_segment (ChangeCase.paramCase (nameWithoutPlugin name)).
Proof.
  intros Hvalid Hname.
  pose proof (paramCase_chars (nameWithoutPlugin name)) as Hchars.
  assert (ChangeCase.paramCase (nameWithoutPlugin name) <> EmptyString) as Hne.
  { destruct (nameWithoutPlugin name) as [|c s] eqn:E;
      [by apply nameWithoutPlugin_empty in E|].
    apply paramCase_ne_empty.
    destruct name as [|c0 [|c1 rest]]; try done.
    cbn [nameWithoutPlugin] in E.
    destruct (match_plugin_suffix_here _); [done|]. injection E as <- _.
    unfold valid_name in Hvalid.
    by apply andb_true_iff in Hvalid as [[? ?]%andb_true_iff _]. }
  split; [done|]. split; [|split].
  - intros E. by rewrite E in Hchars.
  - intros E. by rewrite E in Hchars.
  - eapply all_chars_impl; [apply name_char_no_sep|done].
Qed.

(** ** Plugin generation *)

Arguments Path.join : simpl never.
Arguments ChangeCase.paramCase : simpl never.
Arguments ChangeCase.pascalCase : simpl never.
Arguments ChangeCase.constantCase : simpl never.
Arguments nameWithoutPlugin : simpl never.
Arguments normalizedName : simpl never.

Lemma find_index_Some {A} (p : A -> bool) (xs : list A) (i : nat) :
  find_index p xs = Some i ->
  exists x, xs !! i = Some x /\ p x = true.
Proof.
  revert i; induction xs as [|x xs IH]; intros i; simpl; [done|].
  destruct (p x) eqn:Hp.
  - intros [= <-]. by exists x.
  - destruct (find_index p xs) as [j|]; simpl; [|done].
    intros [= <-]. by apply IH.
Qed.

Lemma find_index_None {A} (p : A -> bool) (xs : list A) :
  find_index p xs = None <-> forall x, x ∈ xs -> p x = false.
Proof.
  induction xs as [|x xs IH]; simpl.
  - split; [intros _ y Hy; by apply elem_of_nil in Hy|done].
  - destruct (p x) eqn:Hp.
    + split; [done|]. intros H. specialize (H x (list_elem_of_here _ _)). congruence.
    + destruct (find_index p xs); simpl.
      * split; [done|]. intros H.
        assert (@None nat = None) as _ by done.
        destruct IH as [_ IH]. discriminate IH.
        intros y Hy. apply H. by apply list_elem_of_further.
      * split; [|done]. intros _ y [->|Hy]%elem_of_cons; [done|].
        by apply IH.
Qed.

Lemma generatePlugin_inv (env : Env) (opts : GeneratePluginOptions) (w w' : World)
    (r : VendurePluginRef + Halt) :
  generatePlugin env opts w = (r, w') ->
  match r with
  | inr h =>
      disk w' = disk w /\
      console w' = console w ++ [SpinnerStart "Generating plugin scaffold..."]
  | inl plugin =>
      exists i f1 f2 f3,
        plugin = {| classDeclaration := {| classFile := 0; classIndex := i |} |} /\
        project w' =
          [ {| filePath :=
                 Path.join [pluginDir opts;
                            ChangeCase.paramCase (nameWithoutPlugin (name opts))
                            +:+ ".plugin.ts"];
               fileContent := f1 |};
            {| filePath := Path.join [pluginDir opts; "types.ts"]; fileContent := f2 |};
            {| filePath := Path.join [pluginDir opts; "constants.ts"];
               fileContent := f3 |} ] /\
        classes f1 !! i = Some (pluginName (templateContextOf opts)) /\
        disk w' = flush (project w') (disk w) /\
        console w' = console w ++ [SpinnerStart "Generating plugin scaffold...";
                                   SpinnerStop "Generated plugin scaffold"; Flush]
  end.
Proof.
  unfold generatePlugin.
  cbv [mbind Cmd_bind mret Cmd_ret emit getTsMorphProject setProject createFile
       get throw halt getClass renameClass updateFile getVariableDeclaration
       renameVariable setInitializer updateVariable move save setDisk log].
  simpl.
  destruct (disk w !! Path.join [dirname env; "templates/plugin.template.ts"])
    as [[|t1|]|] eqn:E1; simpl; try (intros [= <- <-]; done).
  destruct (find_index _ (classes t1)) as [i|] eqn:Ei; simpl;
    [|intros [= <- <-]; done].
  destruct (disk w !! Path.join [dirname env; "templates/types.template.ts"])
    as [[|t2|]|] eqn:E2; simpl; try (intros [= <- <-]; done).
  destruct (disk w !! Path.join [dirname env; "templates/constants.template.ts"])
    as [[|t3|]|] eqn:E3; simpl; try (intros [= <- <-]; done).
  apply find_index_Some in Ei as (c & Hc & _).
  destruct (find_index _ (variables t3)) as [v1|]; simpl;
    (destruct (find_index _ _) as [v2|]; simpl;
     intros [= <- <-]; eexists _, _, _, _; simpl;
     (split; [reflexivity|]); (split; [reflexivity|]);
     (split; [apply list_lookup_insert_eq; by eapply lookup_lt_Some|]);
     (split; [reflexivity|]); by rewrite <- !app_assoc).
Qed.

Lemma find_class_None (n : string) (cs : list string) :
  find_index (fun c => bool_decide (c = n)) cs = None <-> n ∉ cs.
Proof.
  rewrite find_index_None. split.
  - intros H Hn. specialize (H n Hn). by case_bool_decide.
  - intros H c Hc. case_bool_decide; [by subst|done].
Qed.

Lemma find_variable_None (n : string) (vs : list VariableDeclaration) :
  find_index (fun v => bool_decide (variableName v = n)) vs = None <->
  n ∉ variableName <$> vs.
Proof.
  rewrite find_index_None. split.
  - intros H (v & -> & Hv)%list_elem_of_fmap. specialize (H v Hv). by case_bool_decide.
  - intros H v Hv. case_bool_decide as E; [|done].
    destruct H. rewrite <- E. by apply list_elem_of_fmap_2.
Qed.

Lemma generatePlugin_missing_class (env : Env) (opts : GeneratePluginOptions)
    (w : World) (t1 : SourceFile) :
  disk w !! Path.join [dirname env; "templates/plugin.template.ts"] = Some (TsFile t1) ->
  "TemplatePlugin" ∉ classes t1 ->
  generatePlugin env opts w =
  (inr (Uncaught pluginClassNotFound), afterMissingClass env t1 w).
Proof.
  intros E1 Hc%find_class_None. unfold generatePlugin.
  cbv [mbind Cmd_bind mret Cmd_ret emit getTsMorphProject setProject createFile
       get throw halt getClass log].
  simpl. rewrite E1. simpl. rewrite Hc. reflexivity.
Qed.

(** With the three templates on disk and the plugin class in its template,
    generation returns; the constants file is edited only where it has the
    declarations looked for. *)
Lemma generatePlugin_success (env : Env) (opts : GeneratePluginOptions)
    (w : World) (t1 t2 t3 : SourceFile) :
  disk w !! Path.join [dirname env; "templates/plugin.template.ts"] = Some (TsFile t1) ->
  disk w !! Path.join [dirname env; "templates/types.template.ts"] = Some (TsFile t2) ->
  disk w !! Path.join [dirname env; "templates/constants.template.ts"]
    = Some (TsFile t3) ->
  "TemplatePlugin" ∈ classes t1 ->
  exists plugin w' f3,
    generatePlugin env opts w = (inl plugin, w') /\
    project w' !! 2 =
      Some {| filePath := Path.join [pluginDir opts; "constants.ts"];
              fileContent := f3 |} /\
    ("TEMPLATE_PLUGIN_OPTIONS" ∉ (variableName <$> variables t3) ->
     "loggerCtx" ∉ (variableName <$> variables t3) ->
     f3 = t3).
Proof.
  intros E1 E2 E3 Hc. unfold generatePlugin.
  cbv [mbind Cmd_bind mret Cmd_ret emit getTsMorphProject setProject createFile
       get throw halt getClass renameClass updateFile getVariableDeclaration
       renameVariable setInitializer updateVariable move save setDisk log].
  simpl. rewrite E1. simpl.
  destruct (find_index _ (classes t1)) as [i|] eqn:Ei;
    [|by apply find_class_None in Ei].
  simpl. rewrite E2. simpl. rewrite E3. simpl.
  destruct (find_index _ (variables t3)) as [v1|] eqn:Ev1; simpl;
    (match goal with
     | |- context [find_index ?p ?l] => destruct (find_index p l) as [v2|] eqn:Ev2
     end; simpl;
     eexists _, _, _; (split; [reflexivity|]); simpl; (split; [reflexivity|]);
     intros H1%find_variable_None H2%find_variable_None;
     congruence).
Qed.

(** C6: in plugin generation nothing is written to disk before the whole
    template instantiation has succeeded.  A generation that stops leaves
    the disk as it was, and the console shows the start of the spinner and
    no flush; a generation that returns has flushed once, as its last act:
    the disk is the old one with the files of the finished project written
    to it. *)
Theorem generatePlugin_single_flush (env : Env) (opts : GeneratePluginOptions)
    (w : World) :
  match generatePlugin env opts w with
  | (inr _, w') =>
      disk w' = disk w /\
      console w' = console w ++ [SpinnerStart "Generating plugin scaffold..."]
  | (inl _, w') =>
      disk w' = flush (project w') (disk w) /\
      console w' = console w ++ [SpinnerStart "Generating plugin scaffold...";
                                 SpinnerStop "Generated plugin scaffold"; Flush]
  end.
Proof.
  destruct (generatePlugin env opts w) as [[plugin|h] w'] eqn:E;
    apply generatePlugin_inv in E.
  - destruct E as (i & f1 & f2 & f3 & _ & _ & _ & Hd & Hc). done.
  - done.
Qed.

(** ** The configuration patch *)

Lemma flush_snoc (files : list MemFile) (m : MemFile) (d : gmap string Entry) :
  flush (files ++ [m]) d = <[filePath m := TsFile (fileContent m)]> (flush files d).
Proof. unfold flush. by rewrite foldl_app. Qed.

(** C7: given the plugin reference that generation returns and a
    configuration file with a plugins list, the configuration patch appends
    exactly one entry [<pluginName>.init({})] to the plugins list and
    exactly one import of [pluginName] from the plugin's file, and flushes:
    the configuration file on disk is then the old one with that one entry
    and that one import added, [pluginName] being the PascalCase name
    derived from the name chosen. *)
Theorem registerInConfig_adds_one_entry (env : Env) (opts : GeneratePluginOptions)
    (w w2 : World) (plugin : VendurePluginRef) (cfg : SourceFile)
    (plugins : list string) :
  generatePlugin env opts w = (inl plugin, w2) ->
  disk w2 !! configPath env = Some (TsFile cfg) ->
  configPlugins cfg = Some plugins ->
  let derivedName := ChangeCase.pascalCase (normalizedName (name opts)) in
  let pluginFilePath :=
    Path.join [pluginDir opts;
               ChangeCase.paramCase (nameWithoutPlugin (name opts)) +:+ ".plugin.ts"] in
  exists w3,
    registerInConfig env plugin w2 = (inl tt, w3) /\
    disk w3 !! configPath env =
      Some (TsFile
        {| classes := classes cfg;
           variables := variables cfg;
           imports := imports cfg ++
             [{| moduleSpecifier := pluginFilePath; namedImports := [derivedName] |}];
           configPlugins := Some (plugins ++ [derivedName +:+ ".init({})"]) |}) /\
    disk w3 = flush (project w3) (disk w2) /\
    console w3 = console w2 ++ [SpinnerStart "Updating VendureConfig..."; Flush;
                                SpinnerStop "Updated VendureConfig"].
Proof.
  intros Hgen Hcfg Hplugins derivedName pluginFilePath.
  apply generatePlugin_inv in Hgen as (i & f1 & f2 & f3 & -> & Hp & Hi & _ & _).
  unfold registerInConfig.
  cbv [mbind Cmd_bind mret Cmd_ret emit setProject get throw halt
       newVendureConfigRef pluginRefName addToPluginsArray addImportsToFile
       getFilePath updateFile save setDisk log getSourceFile].
  simpl. rewrite Hcfg, Hplugins. simpl. rewrite Hp. simpl.
  unfold templateContextOf in Hi. simpl in Hi. repeat (rewrite Hi; simpl).
  eexists. split; [reflexivity|]. simpl.
  split; [|split].
  - rewrite lookup_insert_eq, Hplugins. reflexivity.
  - reflexivity.
  - by rewrite <- !app_assoc.
Qed.

(** ** The default plugin directory *)

Lemma getPluginDirName_cases (env : Env) (d : gmap string Entry) (name : string) :
  getPluginDirName env d name =
  if bool_decide (last (Str.split Path.sep (cwd env)) = Some "plugins") then
    Path.join [cwd env; ChangeCase.paramCase (nameWithoutPlugin name)]
  else if existsSync d (Path.join [cwd env; "package.json"]) then
    Path.join [cwd env; "src"; "plugins"; ChangeCase.paramCase (nameWithoutPlugin name)]
  else Path.join [cwd env; ChangeCase.paramCase (nameWithoutPlugin name)].
Proof. reflexivity. Qed.

Ltac plain_segments :=
  repeat first
    [ by apply Forall_nil
    | apply Forall_cons; split; [first [assumption | by repeat split] |] ].

Ltac or_plain_segments :=
  repeat first
    [ by apply Forall_nil
    | apply Forall_cons; split;
      [first [by left | right; first [assumption | by repeat split]] |] ].

(** C3: the default plugin directory, for every working directory (an
    absolute path) and every name the prompt accepts, with [kebab] the
    kebab-case form of the name without its plugin suffix.  In this order:
    when the last segment of the working directory is [plugins], it is
    [kebab] joined to the working directory; else, when [package.json]
    exists directly under the working directory, it is [src], [plugins] and
    [kebab] joined to it; else [kebab] joined to it.  For every name but
    [plugin] the joined paths are the working directory followed by
    [/kebab], or by [/src/plugins/kebab]; and for the name [reviews] the
    kebab-case form is [reviews]. *)
Theorem getPluginDirName_placement (env : Env) (d : gmap string Entry)
    (name : string) (segments : list string) :
  valid_name name = true ->
  Forall plain_segment segments ->
  cwd env = absolute segments ->
  let kebab := ChangeCase.paramCase (nameWithoutPlugin name) in
  let inPluginsDir := last segments = Some "plugins" in
  let hasManifest := is_Some (d !! absolute (segments ++ ["package.json"])) in
  (inPluginsDir ->
   getPluginDirName env d name = Path.join [cwd env; kebab]) /\
  (~ inPluginsDir -> hasManifest ->
   getPluginDirName env d name = Path.join [cwd env; "src"; "plugins"; kebab]) /\
  (~ inPluginsDir -> ~ hasManifest ->
   getPluginDirName env d name = Path.join [cwd env; kebab]) /\
  (name <> "plugin" ->
   Path.join [cwd env; kebab] = absolute (segments ++ [kebab]) /\
   Path.join [cwd env; "src"; "plugins"; kebab] =
     absolute (segments ++ ["src"; "plugins"; kebab])) /\
  (name = "reviews" -> kebab = "reviews").
Proof.
  intros Hvalid Hsegs Hcwd kebab inPluginsDir hasManifest.
  assert (Path.join [cwd env; "package.json"] = absolute (segments ++ ["package.json"]))
    as Hmanifest.
  { rewrite Hcwd, join_absolute by (done || or_plain_segments).
    by rewrite filter_plain by plain_segments. }
  pose proof (last_split_absolute segments Hsegs) as Hlast. rewrite <- Hcwd in Hlast.
  rewrite getPluginDirName_cases. unfold existsSync. rewrite Hmanifest.
  fold kebab.
  split; [|split; [|split; [|split]]].
  - intros Hin. by rewrite bool_decide_eq_true_2 by by apply Hlast.
  - intros Hnot Hman.
    rewrite bool_decide_eq_false_2 by (intros Hin; by apply Hlast in Hin).
    by rewrite bool_decide_eq_true_2.
  - intros Hnot Hman.
    rewrite bool_decide_eq_false_2 by (intros Hin; by apply Hlast in Hin).
    by rewrite bool_decide_eq_false_2.
  - intros Hname. pose proof (kebab_plain_segment name Hvalid Hname) as Hkebab.
    fold kebab in Hkebab. rewrite Hcwd.
    rewrite !join_absolute by (done || or_plain_segments).
    by rewrite !filter_plain by plain_segments.
  - by intros ->.
Qed.

(** C10: the name [plugin] passes the validation of the name prompt and
    all of it is suffix: the name without the suffix is empty.  The default
    plugin directory is then the working directory itself when that is a
    [plugins] directory or has no manifest, and [src/plugins] under it when
    it has one; and the name of the plugin file is [.plugin.ts], which
    generation writes in the directory chosen. *)
Theorem plugin_named_plugin (env : Env) (d : gmap string Entry)
    (segments : list string) :
  Forall plain_segment segments ->
  cwd env = absolute segments ->
  valid_name "plugin" = true /\
  nameWithoutPlugin "plugin" = EmptyString /\
  (last segments = Some "plugins" \/
   ~ is_Some (d !! absolute (segments ++ ["package.json"])) ->
   getPluginDirName env d "plugin" = cwd env) /\
  (last segments <> Some "plugins" ->
   is_Some (d !! absolute (segments ++ ["package.json"])) ->
   getPluginDirName env d "plugin" = absolute (segments ++ ["src"; "plugins"])) /\
  ChangeCase.paramCase (nameWithoutPlugin "plugin") +:+ ".plugin.ts" = ".plugin.ts" /\
  (forall (opts : GeneratePluginOptions) (dir : list string) w plugin w',
     name opts = "plugin" ->
     Forall plain_segment dir ->
     pluginDir opts = absolute dir ->
     generatePlugin env opts w = (inl plugin, w') ->
     filePath <$> project w' !! getSourceFile plugin =
       Some (absolute (dir ++ [".plugin.ts"])) /\
     is_Some (disk w' !! absolute (dir ++ [".plugin.ts"]))).
Proof.
  intros Hsegs Hcwd.
  assert (Path.join [cwd env; "package.json"] = absolute (segments ++ ["package.json"]))
    as Hmanifest.
  { rewrite Hcwd, join_absolute by (done || or_plain_segments).
    by rewrite filter_plain by plain_segments. }
  pose proof (last_split_absolute segments Hsegs) as Hlast. rewrite <- Hcwd in Hlast.
  assert (Path.join [cwd env; EmptyString] = cwd env) as Hhere.
  { rewrite Hcwd, join_absolute by (done || or_plain_segments).
    by rewrite filter_cons, decide_False, filter_nil, app_nil_r by (intros Hcontra; by apply Hcontra). }
  assert (Path.join [cwd env; "src"; "plugins"; EmptyString] =
          absolute (segments ++ ["src"; "plugins"])) as Hsrc.
  { rewrite Hcwd, join_absolute by (done || or_plain_segments).
    rewrite !filter_cons, filter_nil.
    rewrite !decide_True by done. by rewrite decide_False by (intros Hcontra; by apply Hcontra). }
  split; [reflexivity|]. split; [reflexivity|].
  rewrite getPluginDirName_cases. unfold existsSync. rewrite Hmanifest.
  change (ChangeCase.paramCase (nameWithoutPlugin "plugin")) with EmptyString.
  rewrite Hhere, Hsrc.
  split; [|split; [|split; [reflexivity|]]].
  - intros [Hin|Hman].
    + by rewrite bool_decide_eq_true_2 by by apply Hlast.
    + case_bool_decide; [done|]. by rewrite bool_decide_eq_false_2.
  - intros Hnot Hman.
    rewrite bool_decide_eq_false_2 by (intros Hin; by apply Hlast in Hin).
    by rewrite bool_decide_eq_true_2.
  - intros opts dir w plugin w' Hname Hdir Hpath Hgen.
    apply generatePlugin_inv in Hgen as (i & f1 & f2 & f3 & -> & Hp & _ & Hd & _).
    assert (Path.join [pluginDir opts;
                       ChangeCase.paramCase (nameWithoutPlugin (name opts))
                       +:+ ".plugin.ts"] = absolute (dir ++ [".plugin.ts"])) as Hfile.
    { rewrite Hname, Hpath.
      change (ChangeCase.paramCase (nameWithoutPlugin "plugin") +:+ ".plugin.ts")
        with ".plugin.ts".
      rewrite join_absolute by (done || or_plain_segments).
      by rewrite filter_plain by plain_segments. }
    rewrite Hfile in Hp. rewrite Hd, Hp. split; [reflexivity|].
    unfold flush. simpl.
    destruct (decide (absolute (dir ++ [".plugin.ts"]) =
                      Path.join [pluginDir opts; "constants.ts"])) as [<-|?];
      [by rewrite lookup_insert_eq|rewrite lookup_insert_ne by done].
    destruct (decide (absolute (dir ++ [".plugin.ts"]) =
                      Path.join [pluginDir opts; "types.ts"])) as [<-|?];
      [by rewrite lookup_insert_eq|rewrite lookup_insert_ne by done].
    by rewrite lookup_insert_eq.
Qed.

(** ** Prompts *)

Ltac run_cmd :=
  cbv [mbind Cmd_bind mret Cmd_ret emit get halt throw process_exit setProject setDisk].

Lemma validateDirectory_log (e : Event) (w : World) (input : string) :
  validateDirectory (log e w) input = validateDirectory w input.
Proof. reflexivity. Qed.

(** A text prompt touches neither the disk nor the project, and resolves
    only to the cancel symbol or to an input its validator accepts. *)
Lemma awaitText_inv (validate : World -> string -> option string)
    (inputs : list TextInput) (w w' : World) (r : TextResult + Halt) :
  (forall e w v, validate (log e w) v = validate w v) ->
  awaitText validate inputs w = (r, w') ->
  disk w' = disk w /\ project w' = project w /\
  match r with
  | inl (Value v) => validate w' v = None /\ Submit v ∈ inputs
  | inl CancelSymbol => CancelText ∈ inputs
  | inr h => h = AwaitingInput
  end.
Proof.
  intros Hlog. revert w.
  induction inputs as [|[v|] rest IH]; intros w; simpl; run_cmd.
  - by intros [= <- <-].
  - destruct (validate w v) as [m|] eqn:Hv.
    + intros H. apply IH in H as (Hd & Hp & Hr).
      split; [done|]. split; [done|].
      destruct r as [[v'|]|h]; [|by apply list_elem_of_further|done].
      destruct Hr as [? ?]. split; [done|by apply list_elem_of_further].
    + intros [= <- <-]. repeat split; [done|apply list_elem_of_here].
  - intros [= <- <-]. repeat split. apply list_elem_of_here.
Qed.

Lemma text_inv (message initialValue : string)
    (validate : World -> string -> option string)
    (inputs : list TextInput) (w w' : World) (r : TextResult + Halt) :
  (forall e w v, validate (log e w) v = validate w v) ->
  text message initialValue validate inputs w = (r, w') ->
  disk w' = disk w /\ project w' = project w /\
  match r with
  | inl (Value v) => validate w' v = None /\ Submit v ∈ inputs
  | inl CancelSymbol => CancelText ∈ inputs
  | inr h => h = AwaitingInput
  end.
Proof.
  intros Hlog. unfold text. run_cmd. intros H.
  by apply awaitText_inv in H.
Qed.

(** Every input the validator rejects is answered by its message, and the
    prompt goes on with the next input. *)
Lemma awaitText_rejected (validate : World -> string -> option string)
    (message : string -> string) (bad : list string) (rest : list TextInput)
    (w : World) :
  (forall e w v, validate (log e w) v = validate w v) ->
  Forall (fun v => validate w v = Some (message v)) bad ->
  awaitText validate (map Submit bad ++ rest) w =
  awaitText validate rest
    {| disk := disk w; project := project w;
       console := console w ++ map (fun v => ValidationMessage (message v)) bad |}.
Proof.
  intros Hlog Hbad. revert w Hbad.
  induction bad as [|v bad IH]; intros w Hbad; simpl.
  - rewrite app_nil_r. by destruct w.
  - apply Forall_cons in Hbad as [Hv Hbad]. run_cmd. rewrite Hv.
    rewrite IH.
    + simpl. by rewrite <- app_assoc.
    + eapply Forall_impl; [exact Hbad|]. intros v' Hv'. simpl in Hv'.
      by rewrite Hlog.
Qed.

(** ** The command *)

Section CommandProperties.

Context {U : Type}.
Variable addEntity addService addUiExtensions addCodegen :
  VendurePluginRef -> U -> Cmd unit.
Variable env : Env.

Abbreviation menu :=
  (featureMenu addEntity addService addUiExtensions addCodegen).
Abbreviation command :=
  (createNewPlugin addEntity addService addUiExtensions addCodegen env).

(** The two prompts of [collectOptions], one after the other. *)
Lemma collectOptions_unfold (s : Session U) (w : World) :
  collectOptions env s w =
  match text nameQuestion EmptyString validateName (atName s)
          (log (Intro introMessage) w) with
  | (inr h, w1) => (inr h, w1)
  | (inl CancelSymbol, w1) =>
      (inr (ProcessExit 0), log (CancelMessage cancelledMessage) w1)
  | (inl (Value n), w1) =>
      match text "Plugin location" (getPluginDirName env (disk w1) n)
              validateDirectory (atDirectory s) w1 with
      | (inr h, w2) => (inr h, w2)
      | (inl CancelSymbol, w2) =>
          (inr (ProcessExit 0), log (CancelMessage cancelledMessage) w2)
      | (inl (Value d), w2) =>
          (inl {| name := n; customEntityName := EmptyString; pluginDir := d |}, w2)
      end
  end.
Proof.
  unfold collectOptions. simpl. run_cmd.
  destruct (text _ _ _ (atName s) _) as [[[n|]|h] w1]; try reflexivity.
  simpl. destruct (text _ _ _ (atDirectory s) _) as [[[d|]|h] w2]; reflexivity.
Qed.

Lemma createNewPlugin_unfold (s : Session U) (w : World) :
  command s w =
  match collectOptions env s w with
  | (inr h, w1) => (inr h, w1)
  | (inl opts, w1) =>
      match generatePlugin env opts w1 with
      | (inr h, w2) => (inr h, w2)
      | (inl plugin, w2) =>
          match registerInConfig env plugin w2 with
          | (inr h, w3) => (inr h, w3)
          | (inl _, w3) =>
              match menu plugin (name opts) (atMenu s) w3 with
              | (inr h, w4) => (inr h, w4)
              | (inl _, w4) => (inl tt, log (Outro outroMessage) w4)
              end
          end
      end
  end.
Proof.
  unfold createNewPlugin. run_cmd.
  destruct (collectOptions env s w) as [[opts|h] w1]; [|reflexivity].
  destruct (generatePlugin env opts w1) as [[plugin|h] w2]; [|reflexivity].
  destruct (registerInConfig env plugin w2) as [[[]|h] w3]; [|reflexivity].
  destruct (menu _ _ _ w3) as [[[]|h] w4]; reflexivity.
Qed.

(** What [collectOptions] leaves behind, and what it returns. *)
Lemma collectOptions_inv (s : Session U) (w w' : World)
    (r : GeneratePluginOptions + Halt) :
  collectOptions env s w = (r, w') ->
  disk w' = disk w /\ project w' = project w /\
  match r with
  | inl opts =>
      valid_name (name opts) = true /\ Submit (name opts) ∈ atName s /\
      disk w !! pluginDir opts = None /\ Submit (pluginDir opts) ∈ atDirectory s
  | inr h => h = ProcessExit 0 \/ h = AwaitingInput
  end.
Proof.
  rewrite collectOptions_unfold.
  destruct (text _ _ _ (atName s) _) as [[[n|]|h] w1] eqn:E1;
    apply text_inv in E1 as (Hd1 & Hp1 & Hr1); try done; simpl in *.
  - destruct (text _ _ _ (atDirectory s) _) as [[[d|]|h] w2] eqn:E2;
      apply text_inv in E2 as (Hd2 & Hp2 & Hr2); try done; simpl in *.
    + intros [= <- <-]. split; [congruence|]. split; [congruence|]. simpl.
      destruct Hr1 as [Hn ?], Hr2 as [Hdir ?].
      unfold validateName in Hn. unfold validateDirectory, existsSync in Hdir.
      destruct (valid_name n); [|done].
      case_bool_decide as Hex; [done|].
      repeat split; try done.
      rewrite Hd2, Hd1 in Hex. by apply eq_None_not_Some.
    + intros [= <- <-]. simpl. split; [congruence|]. split; [congruence|]. by left.
    + intros [= <- <-]. split; [congruence|]. split; [congruence|]. by right.
  - intros [= <- <-]. simpl. split; [done|]. split; [done|]. by left.
  - intros [= <- <-]. split; [done|]. split; [done|]. by right.
Qed.

Lemma validateName_log (e : Event) (w : World) (input : string) :
  validateName (log e w) input = validateName w input.
Proof. reflexivity. Qed.

(** C9: when the user cancels at the name prompt (after any number of
    rejected names), the process exits with code 0 and has written nothing:
    the disk and the project are as before, no template was loaded, and the
    console shows the intro, the prompt, one message per rejected name and
    the cancellation message, nothing else. *)
Theorem cancel_at_name_prompt (s : Session U) (w : World) (bad : list string)
    (more : list TextInput) :
  atName s = map Submit bad ++ CancelText :: more ->
  Forall (fun n => valid_name n = false) bad ->
  command s w =
  (inr (ProcessExit 0),
   {| disk := disk w;
      project := project w;
      console :=
        console w ++ [Intro introMessage; TextPrompt nameQuestion EmptyString]
        ++ map (fun _ => ValidationMessage invalidNameMessage) bad
        ++ [CancelMessage cancelledMessage] |}).
Proof.
  intros Hs Hbad.
  rewrite createNewPlugin_unfold, collectOptions_unfold. unfold text. run_cmd.
  rewrite Hs.
  rewrite (awaitText_rejected validateName (fun _ => invalidNameMessage)).
  - simpl. unfold log. simpl. do 2 f_equal.
    rewrite <- !app_assoc. reflexivity.
  - apply validateName_log.
  - eapply Forall_impl; [exact Hbad|]. intros n Hn. simpl in Hn.
    unfold validateName. by rewrite Hn.
Qed.

(** C4, as the code has it: a cancellation at the name prompt or at the
    directory prompt prints the cancellation message and exits with code 0,
    with the disk and the project as they were when the command started; a
    cancellation at the feature menu ends the menu without that message and
    without an exit: the command goes on to print the completion message
    and returns, and nothing else changes after the cancellation. *)
Theorem cancellation_outcomes (s : Session U) (w : World) :
  (forall w1,
     text nameQuestion EmptyString validateName (atName s)
       (log (Intro introMessage) w) = (inl CancelSymbol, w1) ->
     command s w =
       (inr (ProcessExit 0), log (CancelMessage cancelledMessage) w1) /\
     disk w1 = disk w /\ project w1 = project w) /\
  (forall n w1 w2,
     text nameQuestion EmptyString validateName (atName s)
       (log (Intro introMessage) w) = (inl (Value n), w1) ->
     text "Plugin location" (getPluginDirName env (disk w1) n) validateDirectory
       (atDirectory s) w1 = (inl CancelSymbol, w2) ->
     command s w =
       (inr (ProcessExit 0), log (CancelMessage cancelledMessage) w2) /\
     disk w2 = disk w /\ project w2 = project w) /\
  (forall plugin n rest w3,
     menu plugin n (CancelMenu :: rest) w3 =
       (inl tt, log (SelectPrompt ("Add features to " +:+ n +:+ "?")) w3)) /\
  (forall opts w1 plugin w2 w3 w4,
     collectOptions env s w = (inl opts, w1) ->
     generatePlugin env opts w1 = (inl plugin, w2) ->
     registerInConfig env plugin w2 = (inl tt, w3) ->
     menu plugin (name opts) (atMenu s) w3 = (inl tt, w4) ->
     command s w = (inl tt, log (Outro outroMessage) w4)).
Proof.
  split; [|split; [|split]].
  - intros w1 H1. rewrite createNewPlugin_unfold, collectOptions_unfold, H1.
    split; [reflexivity|].
    apply text_inv in H1 as (Hd & Hp & _); [done|apply validateName_log].
  - intros n w1 w2 H1 H2.
    rewrite createNewPlugin_unfold, collectOptions_unfold, H1, H2.
    split; [reflexivity|].
    apply text_inv in H1 as (Hd1 & Hp1 & _); [|apply validateName_log].
    apply text_inv in H2 as (Hd2 & Hp2 & _); [|apply validateDirectory_log].
    simpl in *. split; congruence.
  - reflexivity.
  - intros opts w1 plugin w2 w3 w4 H1 H2 H3 H4.
    by rewrite createNewPlugin_unfold, H1, H2, H3, H4.
Qed.

(** C5, as the code has it: a plugin template without the class
    [TemplatePlugin] is a fatal error, with the message that the plugin
    class could not be found, that aborts the whole command before anything
    is written to disk; a constants template without the options-symbol or
    the logging-context declaration is not: generation goes on and returns,
    and with both missing the constants file is kept as it was loaded. *)
Theorem template_declarations (s : Session U) (w w1 : World)
    (opts : GeneratePluginOptions) (t1 : SourceFile) :
  collectOptions env s w = (inl opts, w1) ->
  disk w1 !! Path.join [dirname env; "templates/plugin.template.ts"]
    = Some (TsFile t1) ->
  ("TemplatePlugin" ∉ classes t1 ->
   generatePlugin env opts w1 =
     (inr (Uncaught pluginClassNotFound), afterMissingClass env t1 w1) /\
   command s w =
     (inr (Uncaught pluginClassNotFound), afterMissingClass env t1 w1) /\
   disk (afterMissingClass env t1 w1) = disk w) /\
  ("TemplatePlugin" ∈ classes t1 ->
   forall t2 t3,
     disk w1 !! Path.join [dirname env; "templates/types.template.ts"]
       = Some (TsFile t2) ->
     disk w1 !! Path.join [dirname env; "templates/constants.template.ts"]
       = Some (TsFile t3) ->
     exists plugin w2 f3,
       generatePlugin env opts w1 = (inl plugin, w2) /\
       project w2 !! 2 =
         Some {| filePath := Path.join [pluginDir opts; "constants.ts"];
                 fileContent := f3 |} /\
       ("TEMPLATE_PLUGIN_OPTIONS" ∉ (variableName <$> variables t3) ->
        "loggerCtx" ∉ (variableName <$> variables t3) ->
        f3 = t3)).
Proof.
  intros Hopts E1. split.
  - intros Hc.
    pose proof (generatePlugin_missing_class env opts w1 t1 E1 Hc) as Hgen.
    split; [exact Hgen|].
    rewrite createNewPlugin_unfold, Hopts, Hgen. split; [reflexivity|].
    by apply collectOptions_inv in Hopts as (Hd & _).
  - intros Hc t2 t3 E2 E3. by eapply generatePlugin_success.
Qed.

(** C8: at the directory prompt every path that exists on disk is rejected
    with a message and the prompt goes on with the user's next input; the
    options the prompts return, the only ones generation is started with,
    name a directory that does not exist on disk; and the prompts never end
    in an uncaught error. *)
Theorem existing_directory_rejected (s : Session U) (w : World) :
  (forall initialValue existing rest w0,
     Forall (fun p => is_Some (disk w0 !! p)) existing ->
     text "Plugin location" initialValue validateDirectory
       (map Submit existing ++ rest) w0 =
     awaitText validateDirectory rest
       {| disk := disk w0; project := project w0;
          console :=
            console w0 ++ [TextPrompt "Plugin location" initialValue]
            ++ map (fun p => ValidationMessage (directoryExistsMessage p)) existing |}) /\
  (forall opts w1,
     collectOptions env s w = (inl opts, w1) ->
     disk w !! pluginDir opts = None /\ disk w1 = disk w /\
     Submit (pluginDir opts) ∈ atDirectory s) /\
  (forall message w1, collectOptions env s w <> (inr (Uncaught message), w1)).
Proof.
  split; [|split].
  - intros initialValue existing rest w0 Hex. unfold text. run_cmd.
    rewrite (awaitText_rejected validateDirectory directoryExistsMessage).
    + simpl. by rewrite <- app_assoc.
    + apply validateDirectory_log.
    + eapply Forall_impl; [exact Hex|]. intros p Hp. simpl in Hp.
      unfold validateDirectory, existsSync. simpl. by rewrite bool_decide_eq_true_2.
  - intros opts w1 H. apply collectOptions_inv in H as (Hd & _ & _ & _ & Hn & Hin).
    done.
  - intros message w1 H. apply collectOptions_inv in H as (_ & _ & [H|H]); done.
Qed.

End CommandProperties.

(** ** The properties on the sample project *)

Lemma cancel_at_name_prompt_witness :
  Sample.run
    {| atName := [Submit "My Plugin"; CancelText]; atDirectory := []; atMenu := [] |}
    Sample.world =
  (inr (ProcessExit 0),
   {| disk := disk Sample.world;
      project := [];
      console := [Intro introMessage; TextPrompt nameQuestion EmptyString;
                  ValidationMessage invalidNameMessage;
                  CancelMessage cancelledMessage] |}).
Proof.
  apply (cancel_at_name_prompt Sample.noFeature Sample.noFeature Sample.noFeature
           Sample.noFeature Sample.env
           {| atName := [Submit "My Plugin"; CancelText]; atDirectory := [];
              atMenu := [] |}
           Sample.world ["My Plugin"] []).
  - reflexivity.
  - repeat constructor.
Defined.

(** C4 fails at the feature menu: the user names the plugin [reviews],
    accepts the directory and cancels at the menu; the command returns
    instead of exiting, and the console ends with the completion message,
    with no cancellation message on it. *)
Lemma cancel_at_menu_completes :
  let result := Sample.run (Sample.prompts [CancelMenu]) Sample.world in
  result.1 = inl tt /\
  console result.2 =
    Sample.promptsConsole ++
    [SpinnerStart "Generating plugin scaffold...";
     SpinnerStop "Generated plugin scaffold"; Flush;
     SpinnerStart "Updating VendureConfig..."; Flush;
     SpinnerStop "Updated VendureConfig";
     SelectPrompt "Add features to reviews?";
     Outro outroMessage].
Proof. split; vm_compute; reflexivity. Qed.

Lemma cancellation_outcomes_witness :
  Sample.run {| atName := [CancelText]; atDirectory := []; atMenu := [] |}
    Sample.world =
  (inr (ProcessExit 0),
   {| disk := disk Sample.world; project := [];
      console := [Intro introMessage; TextPrompt nameQuestion EmptyString;
                  CancelMessage cancelledMessage] |}) /\
  Sample.run {| atName := [Submit "reviews"]; atDirectory := [CancelText];
                atMenu := [] |}
    Sample.world =
  (inr (ProcessExit 0),
   {| disk := disk Sample.world; project := [];
      console := Sample.promptsConsole ++ [CancelMessage cancelledMessage] |}) /\
  Sample.run (Sample.prompts [CancelMenu]) Sample.world =
  (inl tt,
   log (Outro outroMessage)
     (log (SelectPrompt "Add features to reviews?")
        (registerInConfig Sample.env
           {| classDeclaration := {| classFile := 0; classIndex := 0 |} |}
           (generatePlugin Sample.env Sample.opts
              (Sample.afterPrompts Sample.world)).2).2)).
Proof.
  split; [|split].
  - apply (proj1 (cancellation_outcomes Sample.noFeature Sample.noFeature
                    Sample.noFeature Sample.noFeature Sample.env
                    {| atName := [CancelText]; atDirectory := []; atMenu := [] |}
                    Sample.world)
             {| disk := disk Sample.world; project := [];
                console := [Intro introMessage;
                            TextPrompt nameQuestion EmptyString] |}).
    reflexivity.
  - apply (proj1 (proj2 (cancellation_outcomes Sample.noFeature Sample.noFeature
                    Sample.noFeature Sample.noFeature Sample.env
                    {| atName := [Submit "reviews"]; atDirectory := [CancelText];
                       atMenu := [] |}
                    Sample.world))
             "reviews"
             {| disk := disk Sample.world; project := [];
                console := [Intro introMessage;
                            TextPrompt nameQuestion EmptyString] |}
             (Sample.afterPrompts Sample.world)).
    + reflexivity.
    + vm_compute. reflexivity.
  - pose (w1 := Sample.afterPrompts Sample.world).
    pose (plugin := {| classDeclaration := {| classFile := 0; classIndex := 0 |} |}).
    pose (w2 := (generatePlugin Sample.env Sample.opts w1).2).
    pose (w3 := (registerInConfig Sample.env plugin w2).2).
    apply (proj2 (proj2 (proj2
             (cancellation_outcomes Sample.noFeature Sample.noFeature
                Sample.noFeature Sample.noFeature Sample.env
                (Sample.prompts [CancelMenu]) Sample.world)))
             Sample.opts w1 plugin w2 w3
             (log (SelectPrompt "Add features to reviews?") w3));
      vm_compute; reflexivity.
Defined.

(** C5 fails for the variable declarations: with a constants template that
    declares neither [TEMPLATE_PLUGIN_OPTIONS] nor [loggerCtx], the command
    runs to its end and returns, and the constants file is written to the
    plugin directory as the template had it. *)
Lemma missing_variables_not_fatal :
  ("TEMPLATE_PLUGIN_OPTIONS" ∉ (variableName <$> variables Sample.bareConstantsTemplate)) /\
  ("loggerCtx" ∉ (variableName <$> variables Sample.bareConstantsTemplate)) /\
  let result := Sample.run (Sample.prompts [Choose no tt]) Sample.bareWorld in
  result.1 = inl tt /\
  disk result.2 !! "/home/dev/shop/src/plugins/reviews/constants.ts" =
    Some (TsFile Sample.bareConstantsTemplate).
Proof.
  split; [|split; [|split]].
  - simpl. intros [H|H]%elem_of_cons; [discriminate H|by apply elem_of_nil in H].
  - simpl. intros [H|H]%elem_of_cons; [discriminate H|by apply elem_of_nil in H].
  - vm_compute. reflexivity.
  - vm_compute. reflexivity.
Qed.

Lemma template_declarations_witness :
  Sample.run (Sample.prompts []) Sample.foreignWorld =
    (inr (Uncaught pluginClassNotFound),
     afterMissingClass Sample.env Sample.foreignPluginTemplate
       (Sample.afterPrompts Sample.foreignWorld)) /\
  exists plugin w2,
    generatePlugin Sample.env Sample.opts (Sample.afterPrompts Sample.bareWorld) =
      (inl plugin, w2) /\
    project w2 !! 2 =
      Some {| filePath := "/home/dev/shop/src/plugins/reviews/constants.ts";
              fileContent := Sample.bareConstantsTemplate |}.
Proof.
  split.
  - refine (proj1 (proj2 (proj1
      (template_declarations Sample.noFeature Sample.noFeature Sample.noFeature
         Sample.noFeature Sample.env (Sample.prompts []) Sample.foreignWorld
         (Sample.afterPrompts Sample.foreignWorld) Sample.opts
         Sample.foreignPluginTemplate _ _) _))).
    + vm_compute. reflexivity.
    + vm_compute. reflexivity.
    + simpl. intros [H|H]%elem_of_cons; [discriminate H|by apply elem_of_nil in H].
  - destruct (proj2
      (template_declarations Sample.noFeature Sample.noFeature Sample.noFeature
         Sample.noFeature Sample.env (Sample.prompts []) Sample.bareWorld
         (Sample.afterPrompts Sample.bareWorld) Sample.opts
         Sample.pluginTemplate
         ltac:(vm_compute; reflexivity) ltac:(vm_compute; reflexivity))
      ltac:(apply list_elem_of_here)
      Sample.typesTemplate Sample.bareConstantsTemplate
      ltac:(vm_compute; reflexivity) ltac:(vm_compute; reflexivity))
      as (plugin & w2 & f3 & Hgen & Hfile & Hkept).
    exists plugin, w2. split; [exact Hgen|].
    rewrite Hfile, Hkept; [reflexivity| |];
      simpl; intros [H|H]%elem_of_cons;
      try discriminate H; by apply elem_of_nil in H.
Defined.

Lemma registerInConfig_adds_one_entry_witness :
  let generated :=
    generatePlugin Sample.env Sample.opts (Sample.afterPrompts Sample.world) in
  exists plugin w3,
    generated.1 = inl plugin /\
    registerInConfig Sample.env plugin generated.2 = (inl tt, w3) /\
    disk w3 !! "/home/dev/shop/src/vendure-config.ts" =
      Some (TsFile
        {| classes := []; variables := [];
           imports :=
             [{| moduleSpecifier :=
                   "/home/dev/shop/src/plugins/reviews/reviews.plugin.ts";
                 namedImports := ["ReviewsPlugin"] |}];
           configPlugins :=
             Some ["DefaultJobQueuePlugin"; "ReviewsPlugin.init({})"] |}).
Proof.
  intros generated.
  destruct (registerInConfig_adds_one_entry Sample.env Sample.opts
              (Sample.afterPrompts Sample.world) generated.2
              {| classDeclaration := {| classFile := 0; classIndex := 0 |} |}
              Sample.config ["DefaultJobQueuePlugin"]
              ltac:(vm_compute; reflexivity) ltac:(vm_compute; reflexivity)
              ltac:(reflexivity))
    as (w3 & Hrun & Hcfg & _).
  exists {| classDeclaration := {| classFile := 0; classIndex := 0 |} |}, w3.
  split; [vm_compute; reflexivity|]. split; [exact Hrun|exact Hcfg].
Defined.

Lemma existing_directory_rejected_witness :
  text "Plugin location" "/home/dev/shop/src/plugins/reviews" validateDirectory
    [Submit "/home/dev/shop"; Submit "/home/dev/shop/src"; CancelText]
    Sample.world =
  (inl CancelSymbol,
   {| disk := disk Sample.world; project := [];
      console :=
        [TextPrompt "Plugin location" "/home/dev/shop/src/plugins/reviews";
         ValidationMessage (directoryExistsMessage "/home/dev/shop");
         ValidationMessage (directoryExistsMessage "/home/dev/shop/src")] |}) /\
  disk Sample.world !! pluginDir Sample.opts = None.
Proof.
  split.
  - apply (proj1 (existing_directory_rejected Sample.env (Sample.prompts [])
                    Sample.world)
             "/home/dev/shop/src/plugins/reviews"
             ["/home/dev/shop"; "/home/dev/shop/src"] [CancelText] Sample.world).
    repeat constructor; vm_compute; eexists; reflexivity.
  - apply (proj1 (proj2 (existing_directory_rejected Sample.env (Sample.prompts [])
                           Sample.world))
             Sample.opts (Sample.afterPrompts Sample.world)).
    vm_compute. reflexivity.
Defined.

Lemma getPluginDirName_placement_witness :
  getPluginDirName Sample.env (disk Sample.world) "reviews-plugin" =
    "/home/dev/shop/src/plugins/reviews" /\
  getPluginDirName
    {| cwd := "/home/dev/shop/src/plugins"; dirname := dirname Sample.env;
       tempPath := tempPath Sample.env; configPath := configPath Sample.env |}
    (disk Sample.world) "reviews" =
    "/home/dev/shop/src/plugins/reviews".
Proof.
  split.
  - destruct (getPluginDirName_placement Sample.env (disk Sample.world)
                "reviews-plugin" ["home"; "dev"; "shop"])
      as (_ & Hmanifest & _ & Hjoin & _).
    + reflexivity.
    + plain_segments.
    + reflexivity.
    + rewrite Hmanifest.
      * apply (proj2 (Hjoin ltac:(discriminate))).
      * discriminate.
      * vm_compute. by eexists.
  - destruct (getPluginDirName_placement
                {| cwd := "/home/dev/shop/src/plugins"; dirname := dirname Sample.env;
                   tempPath := tempPath Sample.env;
                   configPath := configPath Sample.env |}
                (disk Sample.world) "reviews"
                ["home"; "dev"; "shop"; "src"; "plugins"])
      as (Hplugins & _ & _ & Hjoin & _).
    + reflexivity.
    + plain_segments.
    + reflexivity.
    + rewrite Hplugins by reflexivity.
      apply (proj1 (Hjoin ltac:(discriminate))).
Defined.

Lemma plugin_named_plugin_witness :
  getPluginDirName Sample.env (disk Sample.world) "plugin" =
    "/home/dev/shop/src/plugins" /\
  getPluginDirName
    {| cwd := "/home/dev/shop/src"; dirname := dirname Sample.env;
       tempPath := tempPath Sample.env; configPath := configPath Sample.env |}
    (disk Sample.world) "plugin" = "/home/dev/shop/src".
Proof.
  split.
  - apply (proj1 (proj2 (proj2 (proj2
      (plugin_named_plugin Sample.env (disk Sample.world) ["home"; "dev"; "shop"]
         ltac:(plain_segments) eq_refl))))).
    + discriminate.
    + vm_compute. by eexists.
  - apply (proj1 (proj2 (proj2
      (plugin_named_plugin
         {| cwd := "/home/dev/shop/src"; dirname := dirname Sample.env;
            tempPath := tempPath Sample.env; configPath := configPath Sample.env |}
         (disk Sample.world) ["home"; "dev"; "shop"; "src"]
         ltac:(plain_segments) eq_refl)))).
    right. vm_compute. by intros [x Hx].
Defined.

(** * Further properties *)

(** ** The plugin suffix *)

Lemma match_plugin_suffix_here_cases (u : string) :
  match_plugin_suffix_here u = true ->
  (exists u', u = String "-"%char u' /\ match_literal_end "plugin" u' = true) \/
  match_literal_end "plugin" u = true.
Proof.
  destruct u as [|c u']; [done|].
  destruct (decide (c = "-"%char)) as [->|Hc].
  - unfold match_plugin_suffix_here. intros [H|H]%orb_true_iff; [left|by right].
    by exists u'.
  - intros H. right. revert H.
    destruct c as [[] [] [] [] [] [] [] []]; try done.
Qed.

Lemma literal_match_here (b : string) :
  match_literal_end "plugin" b = true -> match_plugin_suffix_here b = true.
Proof.
  destruct b as [|c b']; [done|].
  by destruct c as [[] [] [] [] [] [] [] []].
Qed.

Lemma dash_literal_match_here (b : string) :
  match_literal_end "plugin" b = true ->
  match_plugin_suffix_here (String "-"%char b) = true.
Proof. intros H. unfold match_plugin_suffix_here. by rewrite H. Qed.

Lemma nameWithoutPlugin_unfold (name : string) :
  nameWithoutPlugin name =
  if match_plugin_suffix_here name then EmptyString
  else match name with
       | EmptyString => EmptyString
       | String c rest => String c (nameWithoutPlugin rest)
       end.
Proof. by destruct name. Qed.

(** X1: what [name.replace(/-?plugin$/i, '')] removes is a suffix of the
    name, and it is either nothing or a text the pattern matches as a
    whole, of at most seven characters; the rest of the name is kept as it
    is. *)
Theorem nameWithoutPlugin_removes_suffix (name : string) :
  exists removed,
    name = nameWithoutPlugin name +:+ removed /\
    (removed = EmptyString \/ match_plugin_suffix_here removed = true) /\
    String.length removed <= 7.
Proof.
  induction name as [|c rest IH].
  - exists EmptyString. repeat split; [by left|simpl; lia].
  - rewrite nameWithoutPlugin_unfold.
    destruct (match_plugin_suffix_here (String c rest)) eqn:Hm.
    + exists (String c rest). split; [done|]. split; [by right|].
      by apply match_plugin_suffix_here_length.
    + destruct IH as (removed & Hrest & Hremoved & Hlen).
      exists removed. split; [|done].
      rewrite append_cons. by rewrite <- Hrest.
Qed.

Lemma nameWithoutPlugin_length_le (a b : string) :
  match_literal_end "plugin" b = true ->
  String.length (nameWithoutPlugin (a +:+ b)) <= String.length a.
Proof.
  intros Hb. induction a as [|c a IH].
  - change (EmptyString +:+ b) with b.
    rewrite nameWithoutPlugin_unfold, (literal_match_here b Hb). simpl. lia.
  - rewrite append_cons, nameWithoutPlugin_unfold.
    destruct (match_plugin_suffix_here _); simpl; lia.
Qed.

(** X2: the name is left unchanged exactly when it does not end with
    [plugin] in any letter case. *)
Theorem nameWithoutPlugin_unchanged_iff (name : string) :
  nameWithoutPlugin name = name <->
  (forall a b, name = a +:+ b -> match_literal_end "plugin" b = false).
Proof.
  split.
  - intros Hsame a b -> . destruct (match_literal_end "plugin" b) eqn:Hb; [|done].
    pose proof (nameWithoutPlugin_length_le a b Hb) as Hle.
    rewrite Hsame, length_append in Hle.
    apply match_literal_end_length in Hb. simpl in Hb. lia.
  - induction name as [|c rest IH]; intros Hnone; [done|].
    rewrite nameWithoutPlugin_unfold.
    destruct (match_plugin_suffix_here (String c rest)) eqn:Hm.
    + apply match_plugin_suffix_here_cases in Hm as [(u' & Hu & Hlit)|Hlit].
      * injection Hu as -> ->.
        by rewrite (Hnone (String "-"%char EmptyString) u') in Hlit.
      * by rewrite (Hnone EmptyString (String c rest)) in Hlit.
    + f_equal. apply IH. intros a b ->.
      by apply (Hnone (String c a) b).
Qed.

Lemma nameWithoutPlugin_dash_suffix (stem suffix : string) :
  match_literal_end "plugin" suffix = true ->
  nameWithoutPlugin (stem +:+ String "-"%char suffix) = stem.
Proof.
  intros Hsuffix. pose proof (match_literal_end_length _ _ Hsuffix) as Hlen.
  simpl in Hlen.
  induction stem as [|c stem IH].
  - change (EmptyString +:+ ?x) with x.
    by rewrite nameWithoutPlugin_unfold, dash_literal_match_here.
  - rewrite append_cons, nameWithoutPlugin_unfold.
    destruct (match_plugin_suffix_here _) eqn:E; [|by rewrite IH].
    apply match_plugin_suffix_here_length in E.
    simpl in E. rewrite length_append in E. simpl in E. lia.
Qed.

Lemma nameWithoutPlugin_bare_suffix (stem suffix : string) :
  match_literal_end "plugin" suffix = true ->
  (forall s, stem <> s +:+ "-") ->
  nameWithoutPlugin (stem +:+ suffix) = stem.
Proof.
  intros Hsuffix. pose proof (match_literal_end_length _ _ Hsuffix) as Hlen.
  simpl in Hlen.
  induction stem as [|c stem IH]; intros Hdash.
  - change (EmptyString +:+ ?x) with x.
    by rewrite nameWithoutPlugin_unfold, literal_match_here.
  - rewrite append_cons, nameWithoutPlugin_unfold.
    destruct (match_plugin_suffix_here _) eqn:E.
    + exfalso.
      pose proof (match_plugin_suffix_here_length _ E) as Hle.
      simpl in Hle. rewrite length_append in Hle.
      destruct stem as [|c' stem']; [|simpl in Hle; lia].
      change (EmptyString +:+ suffix) with suffix in E.
      apply match_plugin_suffix_here_cases in E as [(u' & Hu & _)|Hlit].
      * injection Hu as -> _. by apply (Hdash EmptyString).
      * apply match_literal_end_length in Hlit. simpl in Hlit. lia.
    + f_equal. apply IH. intros s ->. by apply (Hdash (String c s)).
Qed.

(** X3: whatever the letter case of a trailing [plugin], and with or
    without one dash before it, the normalised name is the stem followed by
    [-plugin]. *)
Theorem normalizedName_suffix_forms (stem suffix : string) :
  match_literal_end "plugin" suffix = true ->
  normalizedName (stem +:+ "-" +:+ suffix) = stem +:+ "-plugin" /\
  ((forall s, stem <> s +:+ "-") ->
   normalizedName (stem +:+ suffix) = stem +:+ "-plugin").
Proof.
  intros Hsuffix. unfold normalizedName. split.
  - change ("-" +:+ suffix) with (String "-"%char suffix).
    by rewrite nameWithoutPlugin_dash_suffix.
  - intros Hdash. by rewrite nameWithoutPlugin_bare_suffix.
Qed.

Lemma normalizedName_suffix_forms_witness :
  normalizedName "reviews-PlugIn" = "reviews-plugin" /\
  normalizedName "reviewsPLUGIN" = "reviews-plugin".
Proof.
  split.
  - apply (proj1 (normalizedName_suffix_forms "reviews" "PlugIn" eq_refl)).
  - apply (proj2 (normalizedName_suffix_forms "reviews" "PLUGIN" eq_refl)).
    intros s Hs.
    assert (String.length "reviews" = String.length (s +:+ "-")) as Hlen
      by (by rewrite <- Hs).
    rewrite length_append in Hlen. simpl in Hlen.
    do 7 (destruct s as [|? s]; [discriminate Hs|]).
    simpl in Hlen. lia.
Defined.

(** X4: among the names the name prompt accepts, [plugin] is the only one
    that is all suffix; every other accepted name keeps a stem that starts
    with the name's first letter. *)
Theorem empty_stem_only_for_plugin (name : string) :
  valid_name name = true ->
  (nameWithoutPlugin name = EmptyString <-> name = "plugin") /\
  (name <> "plugin" ->
   exists c stem rest,
     name = String c rest /\ nameWithoutPlugin name = String c stem /\
     Char.is_lower c = true).
Proof.
  intros Hvalid. split; [split|].
  - by apply nameWithoutPlugin_empty.
  - by intros ->.
  - intros Hname.
    destruct (nameWithoutPlugin name) as [|c stem] eqn:E;
      [by apply nameWithoutPlugin_empty in E|].
    destruct name as [|c0 [|c1 rest]]; try done.
    rewrite nameWithoutPlugin_unfold in E.
    destruct (match_plugin_suffix_here _); [done|]. injection E as <- <-.
    eexists _, _, _. split; [done|]. split; [done|].
    unfold valid_name in Hvalid.
    by apply andb_true_iff in Hvalid as [[? ?]%andb_true_iff _].
Qed.

Lemma empty_stem_only_for_plugin_witness :
  (nameWithoutPlugin "plugin" = EmptyString <-> "plugin" = "plugin") /\
  nameWithoutPlugin "my-plugin" <> EmptyString.
Proof.
  split.
  - apply (proj1 (empty_stem_only_for_plugin "plugin" eq_refl)).
  - intros H.
    by apply (proj1 (proj1 (empty_stem_only_for_plugin "my-plugin" eq_refl))) in H.
Defined.

Lemma nameWithoutPlugin_unchanged_iff_witness :
  match_literal_end "plugin" "views" = false.
Proof.
  apply (proj1 (nameWithoutPlugin_unchanged_iff "reviews") eq_refl "re" "views").
  reflexivity.
Defined.

(** X5: generation and the default directory depend on the name only through
    what is left of it without the plugin suffix: two names with the same
    stem give the same default directory, and generation runs the same for
    them whatever the custom entity name, which it never reads. *)
Theorem generatePlugin_suffix_blind (env : Env) (w : World)
    (opts1 opts2 : GeneratePluginOptions) :
  nameWithoutPlugin (name opts1) = nameWithoutPlugin (name opts2) ->
  pluginDir opts1 = pluginDir opts2 ->
  generatePlugin env opts1 w = generatePlugin env opts2 w /\
  getPluginDirName env (disk w) (name opts1) =
    getPluginDirName env (disk w) (name opts2).
Proof.
  intros Hstem Hdir. split.
  - unfold generatePlugin, templateContextOf, normalizedName. simpl.
    by rewrite Hstem, Hdir.
  - unfold getPluginDirName. by rewrite Hstem.
Qed.

Lemma generatePlugin_suffix_blind_witness :
  generatePlugin Sample.env
    {| name := "reviews-Plugin"; customEntityName := "Review";
       pluginDir := "/home/dev/shop/src/plugins/reviews" |} Sample.world =
  generatePlugin Sample.env Sample.opts Sample.world /\
  getPluginDirName Sample.env (disk Sample.world) "reviews-Plugin" =
  getPluginDirName Sample.env (disk Sample.world) "reviews".
Proof.
  apply (generatePlugin_suffix_blind Sample.env Sample.world
           {| name := "reviews-Plugin"; customEntityName := "Review";
              pluginDir := "/home/dev/shop/src/plugins/reviews" |}
           Sample.opts); reflexivity.
Defined.

(** ** The prompt phase *)

Lemma awaitText_accepted (validate : World -> string -> option string)
    (value : string) (rest : list TextInput) (w : World) :
  validate w value = None ->
  awaitText validate (Submit value :: rest) w = (inl (Value value), w).
Proof. intros H. simpl. run_cmd. by rewrite H. Qed.

(** X6: the prompts take the first name that passes the name rule and the
    first directory that does not exist: every name before it is answered
    by the rule's message, the directory prompt offers the default
    directory computed for the name, every existing directory before the
    one taken is answered by its message, and the inputs after the ones
    taken are not read.  Nothing but the console changes. *)
Theorem collectOptions_first_accepted {U : Type} (env : Env) (s : Session U)
    (w : World) (badNames : list string) (n : string) (moreNames : list TextInput)
    (existing : list string) (dir : string) (moreDirs : list TextInput) :
  atName s = map Submit badNames ++ Submit n :: moreNames ->
  Forall (fun x => valid_name x = false) badNames ->
  valid_name n = true ->
  atDirectory s = map Submit existing ++ Submit dir :: moreDirs ->
  Forall (fun p => is_Some (disk w !! p)) existing ->
  disk w !! dir = None ->
  collectOptions env s w =
  (inl {| name := n; customEntityName := EmptyString; pluginDir := dir |},
   {| disk := disk w;
      project := project w;
      console :=
        console w
        ++ [Intro introMessage; TextPrompt nameQuestion EmptyString]
        ++ map (fun _ => ValidationMessage invalidNameMessage) badNames
        ++ [TextPrompt "Plugin location" (getPluginDirName env (disk w) n)]
        ++ map (fun p => ValidationMessage (directoryExistsMessage p)) existing |}).
Proof.
  intros HatName Hbad Hn HatDir Hexisting Hdir.
  rewrite collectOptions_unfold. unfold text. run_cmd.
  rewrite HatName, HatDir.
  rewrite (awaitText_rejected validateName (fun _ => invalidNameMessage));
    [|apply validateName_log|].
  2: { eapply Forall_impl; [exact Hbad|]. intros x Hx. simpl in Hx.
       unfold validateName. by rewrite Hx. }
  rewrite awaitText_accepted by (unfold validateName; by rewrite Hn).
  rewrite (awaitText_rejected validateDirectory directoryExistsMessage);
    [|apply validateDirectory_log|].
  2: { eapply Forall_impl; [exact Hexisting|]. intros p Hp. simpl in Hp.
       unfold validateDirectory, existsSync. simpl.
       by rewrite bool_decide_eq_true_2. }
  rewrite awaitText_accepted.
  - simpl. do 2 f_equal. by rewrite <- !app_assoc.
  - unfold validateDirectory, existsSync. simpl.
    rewrite bool_decide_eq_false_2; [done|]. rewrite Hdir. by intros [? ?].
Qed.

Lemma collectOptions_first_accepted_witness :
  collectOptions Sample.env
    {| atName := [Submit "Reviews"; Submit "r"; Submit "reviews"; CancelText];
       atDirectory := [Submit "/home/dev/shop/src";
                       Submit "/home/dev/shop/src/plugins/reviews"];
       atMenu := @nil (MenuInput unit) |}
    Sample.world =
  (inl Sample.opts,
   {| disk := disk Sample.world;
      project := [];
      console :=
        [Intro introMessage; TextPrompt nameQuestion EmptyString;
         ValidationMessage invalidNameMessage;
         ValidationMessage invalidNameMessage;
         TextPrompt "Plugin location" "/home/dev/shop/src/plugins/reviews";
         ValidationMessage (directoryExistsMessage "/home/dev/shop/src")] |}).
Proof.
  rewrite (collectOptions_first_accepted Sample.env _ Sample.world
             ["Reviews"; "r"] "reviews" [CancelText]
             ["/home/dev/shop/src"] "/home/dev/shop/src/plugins/reviews" []).
  - vm_compute. reflexivity.
  - reflexivity.
  - repeat constructor.
  - reflexivity.
  - reflexivity.
  - repeat constructor. vm_compute. by eexists.
  - vm_compute. reflexivity.
Defined.

(** X7: however the prompts end, they leave the disk and the project as
    they were.  When they return options, the name passes the name rule and
    is one the user typed, and the custom entity name is empty; when they
    do not, the process has exited with code 0 or a prompt is still
    waiting for input. *)
Theorem collectOptions_guarantees {U : Type} (env : Env) (s : Session U)
    (w : World) :
  match collectOptions env s w with
  | (inl opts, w') =>
      disk w' = disk w /\ project w' = project w /\
      valid_name (name opts) = true /\ Submit (name opts) ∈ atName s /\
      customEntityName opts = EmptyString
  | (inr h, w') =>
      disk w' = disk w /\ project w' = project w /\
      (h = ProcessExit 0 \/ h = AwaitingInput)
  end.
Proof.
  destruct (collectOptions env s w) as [[opts|h] w'] eqn:E.
  - pose proof (collectOptions_inv env s w w' (inl opts) E)
      as (Hd & Hp & Hvalid & Hin & _).
    repeat split; try done.
    revert E. rewrite collectOptions_unfold.
    destruct (text _ _ _ (atName s) _) as [[[n|]|h] w1]; try done.
    destruct (text _ _ _ (atDirectory s) _) as [[[d|]|h] w2]; try done.
    by intros [= <- _].
  - by pose proof (collectOptions_inv env s w w' (inr h) E) as (Hd & Hp & Hh).
Qed.

(** ** The generated files *)

Lemma list_alter_insert {A} (f : A -> A) (i : nat) (l : list A) (x : A) :
  l !! i = Some x -> alter f i l = <[i := f x]> l.
Proof.
  revert i. induction l as [|y l IH]; intros [|i]; simpl; try done.
  - by intros [= ->].
  - intros H. f_equal. by apply IH.
Qed.

Lemma find_index_alter {A} (p : A -> bool) (f : A -> A) (i : nat) (l : list A) :
  (forall x, l !! i = Some x -> p (f x) = p x) ->
  find_index p (alter f i l) = find_index p l.
Proof.
  revert i. induction l as [|y l IH]; intros [|i] Hp; simpl; try done.
  - by rewrite (Hp y).
  - change (list_alter f i l) with (alter f i l).
    rewrite IH; [done|]. intros x Hx. by apply Hp.
Qed.

Lemma options_name_not_logger (s : string) : s +:+ "_OPTIONS" <> "loggerCtx".
Proof.
  intros H.
  assert (String.length (s +:+ "_OPTIONS") = 9) as Hlen by by rewrite H.
  rewrite length_append in Hlen. simpl in Hlen.
  destruct s as [|c [|c' s]]; simpl in Hlen; try lia. discriminate H.
Qed.

Lemma find_variable_Some (n : string) (vs : list VariableDeclaration) (i : nat) :
  find_index (fun v => bool_decide (variableName v = n)) vs = Some i ->
  exists v, vs !! i = Some v /\ variableName v = n.
Proof.
  intros (v & Hv & Hn)%find_index_Some. exists v. split; [done|].
  by case_bool_decide.
Qed.

(** A run of [generatePlugin] with the three templates on disk and the
    plugin class found at [i]. *)
Lemma generatePlugin_run (env : Env) (opts : GeneratePluginOptions) (w : World)
    (t1 t2 t3 : SourceFile) (i : nat) :
  disk w !! Path.join [dirname env; "templates/plugin.template.ts"] = Some (TsFile t1) ->
  disk w !! Path.join [dirname env; "templates/types.template.ts"] = Some (TsFile t2) ->
  disk w !! Path.join [dirname env; "templates/constants.template.ts"]
    = Some (TsFile t3) ->
  find_index (fun c => bool_decide (c = "TemplatePlugin")) (classes t1) = Some i ->
  generatePlugin env opts w =
  (inl {| classDeclaration := {| classFile := 0; classIndex := i |} |},
   {| disk := flush (generatedProject opts i t1 t2 t3) (disk w);
      project := generatedProject opts i t1 t2 t3;
      console := console w ++ [SpinnerStart "Generating plugin scaffold...";
                               SpinnerStop "Generated plugin scaffold"; Flush] |}).
Proof.
  intros E1 E2 E3 Ei. unfold generatePlugin.
  cbv [mbind Cmd_bind mret Cmd_ret emit getTsMorphProject setProject createFile
       get throw halt getClass renameClass updateFile getVariableDeclaration
       renameVariable setInitializer updateVariable move save setDisk log].
  simpl. rewrite E1. simpl. rewrite Ei. simpl. rewrite E2. simpl. rewrite E3. simpl.
  unfold generatedProject, instantiatedVariables.
  set (ctx := templateContextOf opts).
  destruct (find_index
              (fun v => bool_decide (variableName v = "TEMPLATE_PLUGIN_OPTIONS"))
              (variables t3)) as [a|] eqn:Ea; simpl.
  - destruct (find_variable_Some _ _ _ Ea) as (va & Hva & Hna).
    rewrite find_index_alter by done.
    rewrite find_index_alter.
    2: { intros x Hx. simpl. rewrite Hva in Hx. injection Hx as <-.
         rewrite Hna.
         rewrite (bool_decide_eq_false_2 _ (options_name_not_logger _)).
         rewrite bool_decide_eq_false_2; [reflexivity|discriminate]. }
    rewrite (list_alter_insert _ a (variables t3) va Hva).
    rewrite (list_alter_insert _ a _ _ (list_lookup_insert_eq _ _ _ (lookup_lt_Some _ _ _ Hva))).
    rewrite list_insert_insert_eq. simpl.
    destruct (find_index (fun v => bool_decide (variableName v = "loggerCtx"))
                (variables t3)) as [b|] eqn:Eb; simpl.
    + destruct (find_variable_Some _ _ _ Eb) as (vb & Hvb & Hnb).
      assert (a <> b) as Hab by (intros ->; congruence).
      rewrite (list_alter_insert _ b _ vb)
        by (by rewrite list_lookup_insert_ne).
      simpl. rewrite Hnb. by rewrite <- !app_assoc.
    + by rewrite <- !app_assoc.
  - destruct (find_index (fun v => bool_decide (variableName v = "loggerCtx"))
                (variables t3)) as [b|] eqn:Eb; simpl.
    + destruct (find_variable_Some _ _ _ Eb) as (vb & Hvb & Hnb).
      rewrite (list_alter_insert _ b _ vb Hvb). simpl. rewrite Hnb.
      rewrite <- !app_assoc. simpl. by destruct t3.
    + rewrite <- !app_assoc. simpl. by destruct t3.
Qed.

Lemma instantiatedVariables_length (ctx : NewPluginTemplateContext)
    (vars : list VariableDeclaration) :
  length (instantiatedVariables ctx vars) = length vars.
Proof.
  unfold instantiatedVariables.
  repeat match goal with
         | |- context [find_index ?p ?l] => destruct (find_index p l)
         end; by rewrite ?length_insert.
Qed.

Lemma instantiatedVariables_options (opts : GeneratePluginOptions)
    (vars : list VariableDeclaration) (a : nat) :
  find_index (fun v => bool_decide (variableName v = "TEMPLATE_PLUGIN_OPTIONS")) vars
    = Some a ->
  instantiatedVariables (templateContextOf opts) vars !! a =
  Some {| variableName := pluginInitOptionsName (templateContextOf opts);
          initializer :=
            "Symbol('" +:+ pluginInitOptionsName (templateContextOf opts) +:+ "')" |}.
Proof.
  intros Ea. unfold instantiatedVariables. rewrite Ea.
  destruct (find_variable_Some _ _ _ Ea) as (va & Hva & Hna).
  destruct (find_index (fun v => bool_decide (variableName v = "loggerCtx")) vars)
    as [b|] eqn:Eb.
  - destruct (find_variable_Some _ _ _ Eb) as (vb & Hvb & Hnb).
    assert (b <> a) as Hab by (intros ->; congruence).
    rewrite list_lookup_insert_ne by done.
    apply list_lookup_insert_eq. by eapply lookup_lt_Some.
  - apply list_lookup_insert_eq. by eapply lookup_lt_Some.
Qed.

Lemma instantiatedVariables_logger (ctx : NewPluginTemplateContext)
    (vars : list VariableDeclaration) (b : nat) :
  find_index (fun v => bool_decide (variableName v = "loggerCtx")) vars = Some b ->
  instantiatedVariables ctx vars !! b =
  Some {| variableName := "loggerCtx";
          initializer := "'" +:+ pluginName ctx +:+ "'" |}.
Proof.
  intros Eb. unfold instantiatedVariables. rewrite Eb.
  destruct (find_variable_Some _ _ _ Eb) as (vb & Hvb & Hnb).
  assert (b < length vars) as Hlt by (by apply (lookup_lt_Some _ _ vb)).
  apply list_lookup_insert_eq.
  destruct (find_index
              (fun v => bool_decide (variableName v = "TEMPLATE_PLUGIN_OPTIONS")) vars);
    by rewrite ?length_insert.
Qed.

Lemma instantiatedVariables_other (ctx : NewPluginTemplateContext)
    (vars : list VariableDeclaration) (k : nat) :
  find_index (fun v => bool_decide (variableName v = "TEMPLATE_PLUGIN_OPTIONS")) vars
    <> Some k ->
  find_index (fun v => bool_decide (variableName v = "loggerCtx")) vars <> Some k ->
  instantiatedVariables ctx vars !! k = vars !! k.
Proof.
  intros Ha Hb. unfold instantiatedVariables.
  destruct (find_index (fun v => bool_decide (variableName v = "loggerCtx")) vars)
    as [b|];
    [rewrite list_lookup_insert_ne by congruence|];
    (destruct (find_index _ vars) as [a|];
     [by rewrite list_lookup_insert_ne by congruence|done]).
Qed.

Lemma flush_last (files : list MemFile) (m : MemFile) (d : gmap string Entry) :
  flush (files ++ [m]) d !! filePath m = Some (TsFile (fileContent m)).
Proof. by rewrite flush_snoc, lookup_insert_eq. Qed.

(** X9: with the three templates on disk and the plugin class in its
    template, generation writes the constants file with the classes, imports
    and number of variable declarations of the template; the first
    declaration named [TEMPLATE_PLUGIN_OPTIONS] there is now named after
    the plugin's options and initialised with the symbol of that name, the
    first declaration named [loggerCtx] is initialised with the quoted
    plugin name, and every other declaration is as in the template. *)
Theorem constants_file_instantiated (env : Env) (opts : GeneratePluginOptions)
    (w : World) (t1 t2 t3 : SourceFile) (i : nat) :
  disk w !! Path.join [dirname env; "templates/plugin.template.ts"] = Some (TsFile t1) ->
  disk w !! Path.join [dirname env; "templates/types.template.ts"] = Some (TsFile t2) ->
  disk w !! Path.join [dirname env; "templates/constants.template.ts"]
    = Some (TsFile t3) ->
  find_index (fun c => bool_decide (c = "TemplatePlugin")) (classes t1) = Some i ->
  let optionsName :=
    ChangeCase.constantCase (normalizedName (name opts)) +:+ "_OPTIONS" in
  let className := ChangeCase.pascalCase (normalizedName (name opts)) in
  exists plugin w' vars',
    generatePlugin env opts w = (inl plugin, w') /\
    disk w' !! Path.join [pluginDir opts; "constants.ts"] =
      Some (TsFile {| classes := classes t3; variables := vars';
                      imports := imports t3; configPlugins := configPlugins t3 |}) /\
    length vars' = length (variables t3) /\
    (forall a,
       find_index (fun v => bool_decide (variableName v = "TEMPLATE_PLUGIN_OPTIONS"))
         (variables t3) = Some a ->
       vars' !! a =
         Some {| variableName := optionsName;
                 initializer := "Symbol('" +:+ optionsName +:+ "')" |}) /\
    (forall b,
       find_index (fun v => bool_decide (variableName v = "loggerCtx")) (variables t3)
         = Some b ->
       vars' !! b =
         Some {| variableName := "loggerCtx";
                 initializer := "'" +:+ className +:+ "'" |}) /\
    (forall k,
       find_index (fun v => bool_decide (variableName v = "TEMPLATE_PLUGIN_OPTIONS"))
         (variables t3) <> Some k ->
       find_index (fun v => bool_decide (variableName v = "loggerCtx")) (variables t3)
         <> Some k ->
       vars' !! k = variables t3 !! k).
Proof.
  intros E1 E2 E3 Ei optionsName className.
  eexists _, _, (instantiatedVariables (templateContextOf opts) (variables t3)).
  split; [by apply (generatePlugin_run env opts w t1 t2 t3 i)|].
  split; [|split; [|split; [|split]]].
  - cbn [disk]. unfold generatedProject.
    match goal with
    | |- flush [?m1; ?m2; ?m3] ?d !! _ = _ =>
        change (flush [m1; m2; m3] d) with (flush ([m1; m2] ++ [m3]) d)
    end.
    apply (flush_last _ {| filePath := _; fileContent := _ |}).
  - apply instantiatedVariables_length.
  - intros a Ea. by apply instantiatedVariables_options.
  - intros b Eb. by apply instantiatedVariables_logger.
  - intros k Ha Hb. by apply instantiatedVariables_other.
Qed.

Lemma constants_file_instantiated_witness :
  exists plugin w',
    generatePlugin Sample.env Sample.opts Sample.world = (inl plugin, w') /\
    disk w' !! "/home/dev/shop/src/plugins/reviews/constants.ts" =
      Some (TsFile
        {| classes := [];
           variables :=
             [{| variableName := "loggerCtx"; initializer := "'ReviewsPlugin'" |};
              {| variableName := "REVIEWS_PLUGIN_OPTIONS";
                 initializer := "Symbol('REVIEWS_PLUGIN_OPTIONS')" |}];
           imports := []; configPlugins := None |}).
Proof.
  destruct (constants_file_instantiated Sample.env Sample.opts Sample.world
              Sample.pluginTemplate Sample.typesTemplate Sample.constantsTemplate 0
              ltac:(vm_compute; reflexivity) ltac:(vm_compute; reflexivity)
              ltac:(vm_compute; reflexivity) ltac:(reflexivity))
    as (plugin & w' & vars' & Hgen & Hfile & Hlen & Hoptions & Hlogger & _).
  exists plugin, w'. split; [exact Hgen|].
  etrans; [exact Hfile|]. do 2 f_equal.
  specialize (Hoptions 1 eq_refl). specialize (Hlogger 0 eq_refl).
  destruct vars' as [|v0 [|v1 [|v2 vars']]]; try discriminate Hlen.
  simpl in Hoptions, Hlogger. injection Hoptions as ->. injection Hlogger as ->.
  reflexivity.
Defined.











(** ** The configuration patch and the menu *)

Lemma registerInConfig_inv (env : Env) (plugin : VendurePluginRef) (w w' : World)
    (r : unit + Halt) :
  registerInConfig env plugin w = (r, w') ->
  match r with
  | inr _ =>
      disk w' = disk w /\
      console w' = console w ++ [SpinnerStart "Updating VendureConfig..."]
  | inl _ =>
      disk w' = flush (project w') (disk w) /\
      console w' = console w ++ [SpinnerStart "Updating VendureConfig..."; Flush;
                                 SpinnerStop "Updated VendureConfig"]
  end.
Proof.
  unfold registerInConfig.
  cbv [mbind Cmd_bind mret Cmd_ret emit setProject get throw halt
       newVendureConfigRef pluginRefName addToPluginsArray addImportsToFile
       getFilePath updateFile save setDisk log getSourceFile].
  simpl.
  destruct (disk w !! configPath env) as [[|cfg|]|]; simpl;
    try (intros [= <- <-]; done).
  destruct (configPlugins cfg); simpl; [|intros [= <- <-]; done].
  repeat match goal with
         | |- context [match ?x with Some _ => _ | None => _ end] =>
             destruct x; simpl; [|intros [= <- <-]; done]
         end.
  intros [= <- <-]. simpl. split; [reflexivity|]. by rewrite <- !app_assoc.
Qed.

(** X11: the configuration patch writes to disk in one flush, as its last
    act before the spinner stops.  A patch that stops has changed nothing
    on disk and its console shows only the start of the spinner; a patch
    that returns has flushed the project once. *)
Theorem registerInConfig_single_flush (env : Env) (plugin : VendurePluginRef)
    (w : World) :
  match registerInConfig env plugin w with
  | (inr _, w') =>
      disk w' = disk w /\
      console w' = console w ++ [SpinnerStart "Updating VendureConfig..."]
  | (inl _, w') =>
      disk w' = flush (project w') (disk w) /\
      console w' = console w ++ [SpinnerStart "Updating VendureConfig..."; Flush;
                                 SpinnerStop "Updated VendureConfig"]
  end.
Proof.
  destruct (registerInConfig env plugin w) as [[[]|h] w'] eqn:E;
    by apply registerInConfig_inv in E.
Qed.

Section MenuProperties.

Context {U : Type}.
Variable addEntity addService addUiExtensions addCodegen :
  VendurePluginRef -> U -> Cmd unit.
Variable env : Env.

Abbreviation menu' :=
  (featureMenu addEntity addService addUiExtensions addCodegen).
Abbreviation command' :=
  (createNewPlugin addEntity addService addUiExtensions addCodegen env).
Abbreviation generator :=
  (generatorOf addEntity addService addUiExtensions addCodegen).
Abbreviation choices :=
  (runChoices addEntity addService addUiExtensions addCodegen).

Lemma featureMenu_choice (plugin : VendurePluginRef) (n : string)
    (feature : FeatureType) (inside : U) (rest : list (MenuInput U)) (w : World)
    (g : VendurePluginRef -> U -> Cmd unit) :
  generator feature = Some g ->
  menu' plugin n (Choose feature inside :: rest) w =
  match g plugin inside (log (SelectPrompt ("Add features to " +:+ n +:+ "?")) w) with
  | (inl _, w') => menu' plugin n rest w'
  | (inr h, w') => (inr h, w')
  end.
Proof.
  destruct feature; intros [= <-]; simpl; run_cmd;
    destruct (_ plugin inside _) as [[[]|h] w']; reflexivity.
Qed.

(** X12: when the configuration patch stops, the command stops there with
    the same outcome: the menu is not shown and no completion message is
    printed.  Nothing is rolled back: the disk is as generation left it,
    with the three files of the plugin on it. *)
Theorem config_failure_keeps_plugin (s : Session U) (w w1 w2 w3 : World)
    (opts : GeneratePluginOptions) (plugin : VendurePluginRef) (h : Halt) :
  collectOptions env s w = (inl opts, w1) ->
  generatePlugin env opts w1 = (inl plugin, w2) ->
  registerInConfig env plugin w2 = (inr h, w3) ->
  command' s w = (inr h, w3) /\
  console w3 = console w2 ++ [SpinnerStart "Updating VendureConfig..."] /\
  disk w3 = disk w2 /\
  is_Some (disk w3 !! Path.join [pluginDir opts;
             ChangeCase.paramCase (nameWithoutPlugin (name opts)) +:+ ".plugin.ts"]) /\
  is_Some (disk w3 !! Path.join [pluginDir opts; "types.ts"]) /\
  is_Some (disk w3 !! Path.join [pluginDir opts; "constants.ts"]).
Proof.
  intros Hopts Hgen Hcfg.
  split; [by rewrite createNewPlugin_unfold, Hopts, Hgen, Hcfg|].
  apply registerInConfig_inv in Hcfg as [Hd Hc].
  split; [done|]. split; [done|]. rewrite Hd.
  apply generatePlugin_inv in Hgen as (i & f1 & f2 & f3 & _ & Hp & _ & Hd2 & _).
  rewrite Hd2, Hp. unfold flush. simpl.
  set (p1 := Path.join [pluginDir opts; _ +:+ ".plugin.ts"]).
  set (p2 := Path.join [pluginDir opts; "types.ts"]).
  set (p3 := Path.join [pluginDir opts; "constants.ts"]).
  repeat split.
  - destruct (decide (p3 = p1)) as [->|?];
      [by rewrite lookup_insert_eq|rewrite lookup_insert_ne by done].
    destruct (decide (p2 = p1)) as [->|?];
      [by rewrite lookup_insert_eq|rewrite lookup_insert_ne by done].
    by rewrite lookup_insert_eq.
  - destruct (decide (p3 = p2)) as [->|?];
      [by rewrite lookup_insert_eq|rewrite lookup_insert_ne by done].
    by rewrite lookup_insert_eq.
  - by rewrite lookup_insert_eq.
Qed.


(** X14: the menu runs the generators of the features chosen, in the order
    chosen and each with the same plugin reference, until the user picks
    the finish entry or cancels; what the user enters after that is never
    read.  A generator that stops ends the run there. *)
Theorem featureMenu_runs_choices (plugin : VendurePluginRef) (n : string)
    (picks : list (FeatureType * U)) (stop : MenuInput U)
    (rest : list (MenuInput U)) (w : World) :
  Forall (fun pick => pick.1 <> no) picks ->
  (stop = CancelMenu \/ exists inside, stop = Choose no inside) ->
  menu' plugin n (map (fun pick => Choose pick.1 pick.2) picks ++ stop :: rest) w =
  (choices plugin n picks;;
   emit (SelectPrompt ("Add features to " +:+ n +:+ "?"))) w.
Proof.
  intros Hpicks Hstop. revert w.
  induction picks as [|[feature inside] picks IH]; intros w.
  - destruct Hstop as [->|[inside ->]]; reflexivity.
  - apply Forall_cons in Hpicks as [Hfeature Hpicks]. simpl in Hfeature.
    destruct (generator feature) as [g|] eqn:Hg; [|by destruct feature].
    cbn [map app fst snd].
    rewrite (featureMenu_choice plugin n feature inside _ w g Hg).
    cbn [runChoices]. rewrite Hg. run_cmd.
    destruct (g plugin inside _) as [[[]|h] w']; [|reflexivity].
    rewrite (IH Hpicks). reflexivity.
Qed.

End MenuProperties.

Lemma config_failure_keeps_plugin_witness :
  Sample.run (Sample.prompts []) SampleFailure.unconfiguredWorld =
  (inr (Uncaught configNotFound),
   log (SpinnerStart "Updating VendureConfig...")
     (generatePlugin Sample.env Sample.opts
        (Sample.afterPrompts SampleFailure.unconfiguredWorld)).2).
Proof.
  apply (config_failure_keeps_plugin Sample.noFeature Sample.noFeature
           Sample.noFeature Sample.noFeature Sample.env (Sample.prompts [])
           SampleFailure.unconfiguredWorld
           (Sample.afterPrompts SampleFailure.unconfiguredWorld)
           (generatePlugin Sample.env Sample.opts
              (Sample.afterPrompts SampleFailure.unconfiguredWorld)).2
           _ Sample.opts
           {| classDeclaration := {| classFile := 0; classIndex := 0 |} |});
    vm_compute; reflexivity.
Defined.


Lemma featureMenu_runs_choices_witness :
  featureMenu Sample.noFeature Sample.noFeature Sample.noFeature Sample.noFeature
    {| classDeclaration := {| classFile := 0; classIndex := 0 |} |} "reviews"
    [Choose entity tt; Choose codegen tt; Choose no tt; Choose service tt]
    Sample.world =
  (inl tt,
   {| disk := disk Sample.world; project := [];
      console := [SelectPrompt "Add features to reviews?";
                  SelectPrompt "Add features to reviews?";
                  SelectPrompt "Add features to reviews?"] |}).
Proof.
  refine (eq_trans
            (featureMenu_runs_choices Sample.noFeature Sample.noFeature
               Sample.noFeature Sample.noFeature
               {| classDeclaration := {| classFile := 0; classIndex := 0 |} |}
               "reviews" [(entity, tt); (codegen, tt)] (Choose no tt)
               [Choose service tt] Sample.world _ _) _).
  - repeat constructor; discriminate.
  - right. by exists tt.
  - reflexivity.
Defined.
